(** * Riemann-sum calculator (lab.py): a shallow embedding and its properties

    The program computes with Python numbers.  The embedding uses the real
    numbers of the Standard Library for every quantity the program holds in a
    float ([start], [end], [delta_x], abscissas, ordinates, sums) and [Z] for
    the two integers the program matches or counts on ([task], [accuracy]).
    Rounding and the distinction between a Python [int] and a [float] that
    denote the same number are therefore outside the model; exceptions and
    the random generator are inside it.  The [OverflowError] of [**] is left
    out of the first embedding of the calculator, which gives the values of
    the calls that return, and is part of the second one, module [Ranged],
    which the statements about returning or raising are made on. *)

From Stdlib Require Import Reals Lra Lia ZArith List.
Import ListNotations.
From Stdlib Require String Ascii.
Import String.StringSyntax.
Delimit Scope string_scope with string.

Open Scope R_scope.

(** ** Data model (lab.py, lines 9-26) *)

Inductive Equipment : Set := LEFT | RIGHT | MIDDLE | RANDOM.

Record Point : Type := mkPoint { point_x : R; point_y : R }.

(** [end] is a keyword of the language, hence [end_]. *)
Record Settings : Type := mkSettings {
  task : Z;
  start : R;
  end_ : R;
  accuracy : Z;
  equipment : Equipment
}.

Definition with_task (t : Z) (s : Settings) : Settings :=
  mkSettings t (start s) (end_ s) (accuracy s) (equipment s).

Definition with_equipment (e : Equipment) (s : Settings) : Settings :=
  mkSettings (task s) (start s) (end_ s) (accuracy s) e.

(** ** Exceptions

    [Exception('Unsupported task')] and the [ZeroDivisionError] of [/].
    [Exception('Unsupported equipment')] guards the [case _] of a match over
    the four members of the enumeration and cannot be raised on a value of
    type [Equipment]. *)

Inductive exn : Set := UnsupportedTask | ZeroDivisionError.

Inductive result (A : Type) : Type :=
| Ok (a : A)
| Raise (e : exn).

Arguments Ok {A} a.
Arguments Raise {A} e.

Definition bind {A B : Type} (c : result A) (k : A -> result B) : result B :=
  match c with
  | Ok a => k a
  | Raise e => Raise e
  end.

Notation "x <- c ;; k" := (bind c (fun x => k))
  (at level 61, c at next level, right associativity).

(** A [for] loop over a list whose body may raise: the accumulator is the
    variable the loop updates, an exception leaves the loop at once. *)
Fixpoint for_in {A S : Type} (xs : list A) (body : A -> S -> result S)
  (acc : S) : result S :=
  match xs with
  | [] => Ok acc
  | i :: rest => acc' <- body i acc ;; for_in rest body acc'
  end.

(** [range(n)]: the integers [0 .. n-1], empty when [n <= 0]. *)
Definition range (n : Z) : list Z := map Z.of_nat (seq 0 (Z.to_nat n)).

(** ** The random generator

    The state of the generator is the sequence of values that
    [random.random()] is still to return.  [random.uniform(a, b)] is
    [a + (b - a) * random()]. *)

Definition Rng : Type := nat -> R.

Definition random_random (g : Rng) : R * Rng :=
  (g 0%nat, fun n => g (S n)).

Definition random_uniform (a b : R) (g : Rng) : R * Rng :=
  let (u, g') := random_random g in (a + (b - a) * u, g').

(** Computations that may draw from the generator and may raise. *)
Definition M (A : Type) : Type := Rng -> result A * Rng.

Definition ret {A : Type} (a : A) : M A := fun g => (Ok a, g).

Definition lift {A : Type} (c : result A) : M A := fun g => (c, g).

Definition draw {A : Type} (d : Rng -> A * Rng) : M A :=
  fun g => let (a, g') := d g in (Ok a, g').

Definition bindM {A B : Type} (c : M A) (k : A -> M B) : M B :=
  fun g =>
    match c g with
    | (Ok a, g') => k a g'
    | (Raise e, g') => (Raise e, g')
    end.

Notation "x <~ c ;; k" := (bindM c (fun x => k))
  (at level 61, c at next level, right associativity).

(** ** CalculatorUtils (lab.py, lines 28-81) *)

(** [math.e] *)
Definition math_e : R := exp 1.

(** lines 29-37 *)
Definition get_formula_value_at (x : R) (settings : Settings) : result R :=
  match task settings with
  | 2%Z => Ok (Rpower math_e x)
  | 10%Z => Ok (Rpower math_e (2 * x))
  | 22%Z => Ok (x ^ 3)
  | 26%Z => Ok (Rpower math_e (2 * x))
  | 31%Z => Ok (Rpower 3 x)
  | _ => Raise UnsupportedTask
  end.

(** lines 69-71 *)
Definition calculate_delta_x (settings : Settings) : result R :=
  if (accuracy settings =? 0)%Z then Raise ZeroDivisionError
  else Ok ((end_ settings - start settings) / IZR (accuracy settings)).

(** lines 39-48 *)
Definition calculate_graph_points (settings : Settings) : result (list Point) :=
  delta_x <- calculate_delta_x settings ;;
  for_in (range (accuracy settings + 1))
    (fun i points =>
       let x := start settings + IZR i * delta_x in
       y <- get_formula_value_at x settings ;;
       Ok (points ++ [mkPoint x y]))
    [].

(** lines 73-81 *)
Definition calculate_integral_shape_shift (settings : Settings) : M R :=
  delta_x <~ lift (calculate_delta_x settings) ;;
  match equipment settings with
  | LEFT => ret 0
  | RIGHT => ret delta_x
  | MIDDLE => ret (delta_x / 2)
  | RANDOM => draw (random_uniform 0 delta_x)
  end.

(** lines 50-67 *)
Definition calculate_integral_sum (settings : Settings) : M R :=
  delta_x <~ lift (calculate_delta_x settings) ;;
  delta_x_shift <~ calculate_integral_shape_shift settings ;;
  integral_sum <~ lift
    (for_in (range (accuracy settings + 1))
       (fun i integral_sum =>
          let x := start settings + IZR i * delta_x in
          y <- get_formula_value_at x settings ;;
          Ok (integral_sum + delta_x * y))
       0) ;;
  lift
    match equipment settings with
    | LEFT =>
        y0 <- get_formula_value_at (start settings) settings ;;
        Ok (integral_sum - y0 * delta_x)
    | RIGHT =>
        y1 <- get_formula_value_at (end_ settings) settings ;;
        Ok (integral_sum - y1 * delta_x)
    | MIDDLE =>
        y0 <- get_formula_value_at (start settings) settings ;;
        y1 <- get_formula_value_at (end_ settings) settings ;;
        Ok (integral_sum - ((y0 + y1) / 2) * delta_x)
    | RANDOM =>
        y0 <- get_formula_value_at (start settings) settings ;;
        y1 <- get_formula_value_at (end_ settings) settings ;;
        Ok (integral_sum - (y0 * delta_x_shift + y1 * (delta_x - delta_x_shift)))
    end.

(** ** Drawer (lab.py, lines 83-164), the part that builds the rectangles

    Of the object only the two private fields the rectangles depend on are
    kept; the plotting axes and the text boxes carry no geometry. *)

Record Drawer : Type := mkDrawer {
  drawer_settings : Settings;
  drawer_points : list Point
}.

(** [plt.Rectangle((x, y), width, height, ...)]; both colours are the
    constant ['red']. *)
Record Rectangle : Type := mkRectangle {
  rect_x : R;
  rect_y : R;
  rect_width : R;
  rect_height : R
}.

(** lines 84-86 *)
Definition Drawer_init (settings : Settings) : result Drawer :=
  points <- calculate_graph_points settings ;;
  Ok (mkDrawer settings points).

(** lines 163-164 *)
Definition create_integral_rectangle (point : Point) (delta_x delta_x_shift : R)
  : Rectangle :=
  mkRectangle (point_x point - delta_x_shift) 0 delta_x (point_y point).

(** lines 153-161 *)
Definition create_integral_shape (self : Drawer) : M (list Rectangle) :=
  delta_x <~ lift (calculate_delta_x (drawer_settings self)) ;;
  delta_x_shift <~ calculate_integral_shape_shift (drawer_settings self) ;;
  ret (fold_left
         (fun rectangles point =>
            rectangles ++ [create_integral_rectangle point delta_x delta_x_shift])
         (drawer_points self) []).

(** lines 204-212 *)
Definition read_settings : Settings := mkSettings 2 0 1 10 MIDDLE.

(** lines 149-151, without the redraw *)
Definition update (self : Drawer) : result Drawer :=
  points <- calculate_graph_points (drawer_settings self) ;;
  Ok (mkDrawer (drawer_settings self) points).

(** ** CalculatorUtils with the range of a float (lab.py, lines 28-81)

    [**] on a float raises [OverflowError] when its result is too large for a
    float.  The definitions above leave that exception out: they describe the
    values of the calls that return.  The module below embeds the same five
    functions with it, for the statements about which calls return: a power
    whose real value rounds to infinity (magnitude at least
    [2^1024 - 2^970]) raises, and any other returns its real value.
    Rounding of the values that are returned, and an [int] argument too
    large to become a float, stay outside. *)

Module Ranged.

Inductive exn : Set := UnsupportedTask | ZeroDivisionError | OverflowError.

Inductive result (A : Type) : Type :=
| Ok (a : A)
| Raise (e : exn).

Arguments Ok {A} a.
Arguments Raise {A} e.

Definition bind {A B : Type} (c : result A) (k : A -> result B) : result B :=
  match c with
  | Ok a => k a
  | Raise e => Raise e
  end.

Notation "x <-- c ;; k" := (bind c (fun x => k))
  (at level 61, c at next level, right associativity).

Fixpoint for_in {A S : Type} (xs : list A) (body : A -> S -> result S)
  (acc : S) : result S :=
  match xs with
  | [] => Ok acc
  | i :: rest => acc' <-- body i acc ;; for_in rest body acc'
  end.

Definition M (A : Type) : Type := Rng -> result A * Rng.

Definition ret {A : Type} (a : A) : M A := fun g => (Ok a, g).

Definition lift {A : Type} (c : result A) : M A := fun g => (c, g).

Definition draw {A : Type} (d : Rng -> A * Rng) : M A :=
  fun g => let (a, g') := d g in (Ok a, g').

Definition bindM {A B : Type} (c : M A) (k : A -> M B) : M B :=
  fun g =>
    match c g with
    | (Ok a, g') => k a g'
    | (Raise e, g') => (Raise e, g')
    end.

Notation "x <~~ c ;; k" := (bindM c (fun x => k))
  (at level 61, c at next level, right associativity).

(** The least magnitude that rounds to infinity. *)
Definition overflow_bound : R := 2 ^ 1024 - 2 ^ 970.

Definition in_range (y : R) : Prop := Rabs y < overflow_bound.

(** The result of [**], given the real value [y] of the power. *)
Definition float_pow (y : R) : result R :=
  if Rlt_dec (Rabs y) overflow_bound then Ok y else Raise OverflowError.

(** lines 29-37 *)
Definition get_formula_value_at (x : R) (settings : Settings) : result R :=
  match task settings with
  | 2%Z => float_pow (Rpower math_e x)
  | 10%Z => float_pow (Rpower math_e (2 * x))
  | 22%Z => float_pow (x ^ 3)
  | 26%Z => float_pow (Rpower math_e (2 * x))
  | 31%Z => float_pow (Rpower 3 x)
  | _ => Raise UnsupportedTask
  end.

(** lines 69-71 *)
Definition calculate_delta_x (settings : Settings) : result R :=
  if (accuracy settings =? 0)%Z then Raise ZeroDivisionError
  else Ok ((end_ settings - start settings) / IZR (accuracy settings)).

(** lines 39-48 *)
Definition calculate_graph_points (settings : Settings) : result (list Point) :=
  delta_x <-- calculate_delta_x settings ;;
  for_in (range (accuracy settings + 1))
    (fun i points =>
       let x := start settings + IZR i * delta_x in
       y <-- get_formula_value_at x settings ;;
       Ok (points ++ [mkPoint x y]))
    [].

(** lines 73-81 *)
Definition calculate_integral_shape_shift (settings : Settings) : M R :=
  delta_x <~~ lift (calculate_delta_x settings) ;;
  match equipment settings with
  | LEFT => ret 0
  | RIGHT => ret delta_x
  | MIDDLE => ret (delta_x / 2)
  | RANDOM => draw (random_uniform 0 delta_x)
  end.

(** lines 50-67 *)
Definition calculate_integral_sum (settings : Settings) : M R :=
  delta_x <~~ lift (calculate_delta_x settings) ;;
  delta_x_shift <~~ calculate_integral_shape_shift settings ;;
  integral_sum <~~ lift
    (for_in (range (accuracy settings + 1))
       (fun i integral_sum =>
          let x := start settings + IZR i * delta_x in
          y <-- get_formula_value_at x settings ;;
          Ok (integral_sum + delta_x * y))
       0) ;;
  lift
    match equipment settings with
    | LEFT =>
        y0 <-- get_formula_value_at (start settings) settings ;;
        Ok (integral_sum - y0 * delta_x)
    | RIGHT =>
        y1 <-- get_formula_value_at (end_ settings) settings ;;
        Ok (integral_sum - y1 * delta_x)
    | MIDDLE =>
        y0 <-- get_formula_value_at (start settings) settings ;;
        y1 <-- get_formula_value_at (end_ settings) settings ;;
        Ok (integral_sum - ((y0 + y1) / 2) * delta_x)
    | RANDOM =>
        y0 <-- get_formula_value_at (start settings) settings ;;
        y1 <-- get_formula_value_at (end_ settings) settings ;;
        Ok (integral_sum - (y0 * delta_x_shift + y1 * (delta_x - delta_x_shift)))
    end.

End Ranged.

(** ** Vocabulary of the statements *)

(** The ids that [get_formula_value_at] has a case for. *)
Definition formula_table : list Z := [2; 10; 22; 26; 31]%Z.

Definition supported (t : Z) : Prop := In t formula_table.

(** The ordinate at [x] when the task is supported (0 stands for "raised"). *)
Definition value_at (x : R) (settings : Settings) : R :=
  match get_formula_value_at x settings with
  | Ok y => y
  | Raise _ => 0
  end.

(** The abscissa of the [i]-th sample for a width [w]. *)
Definition abscissa (settings : Settings) (w : R) (i : Z) : R :=
  start settings + IZR i * w.

(** The sum the loop of [calculate_integral_sum] accumulates. *)
Definition raw_sum (settings : Settings) (w : R) : R :=
  fold_left (fun acc i => acc + w * value_at (abscissa settings w i) settings)
    (range (accuracy settings + 1)) 0.

(** [partial_sum f k] is [f 0 + f 1 + ... + f (k - 1)]. *)
Fixpoint partial_sum (f : nat -> R) (k : nat) : R :=
  match k with
  | O => 0
  | S k' => partial_sum f k' + f k'
  end.

(** The width of a subinterval and the [i]-th sample, read off the fields;
    meaningful when [accuracy] is not 0. *)
Definition width (settings : Settings) : R :=
  (end_ settings - start settings) / IZR (accuracy settings).

Definition sample_x (settings : Settings) (i : nat) : R :=
  start settings + INR i * width settings.

Definition sample_y (settings : Settings) (i : nat) : R :=
  value_at (sample_x settings i) settings.

(** A primitive of each formula of the table: its derivative is the formula
    (lemma [primitive_derivative]), so [primitive end - primitive start] is
    the integral the program approximates. *)
Definition primitive (x : R) (settings : Settings) : R :=
  match task settings with
  | 2%Z => exp x
  | 10%Z => exp (2 * x) / 2
  | 22%Z => x ^ 4 / 4
  | 26%Z => exp (2 * x) / 2
  | 31%Z => Rpower 3 x / ln 3
  | _ => 0
  end.

Definition integral (settings : Settings) : R :=
  primitive (end_ settings) settings - primitive (start settings) settings.


(** The same settings with the two bounds exchanged. *)
Definition swapped (s : Settings) : Settings :=
  mkSettings (task s) (end_ s) (start s) (accuracy s) (equipment s).

Definition with_accuracy (n : Z) (s : Settings) : Settings :=
  mkSettings (task s) (start s) (end_ s) n (equipment s).

Definition with_start (a : R) (s : Settings) : Settings :=
  mkSettings (task s) a (end_ s) (accuracy s) (equipment s).

Definition with_end (b : R) (s : Settings) : Settings :=
  mkSettings (task s) (start s) b (accuracy s) (equipment s).

(** The points [calculate_graph_points] returns on a supported task. *)
Definition samples (s : Settings) : list Point :=
  map (fun i => mkPoint (abscissa s (width s) i)
                  (value_at (abscissa s (width s) i) s))
    (range (accuracy s + 1)).

(** ** The rest of Drawer and the entry point (lab.py, lines 109-217)

    What the program does to the plot is the sequence of calls it makes on
    the axes; a call is recorded with the arguments that vary (colours, font
    size, line width and the position box are constants of the source).
    The calls themselves are taken to return normally. *)

Inductive AxesCall : Type :=
| Axes_clear
| Axes_plot (xs ys : list R)
| Axes_add_patch (rectangle : Rectangle)
| Axes_set_title (label : String.string)
| Axes_set_xlim (left right : R)
| Axes_set_ylim (bottom top : R)
| Axes_grid
| Axes_set_position.

(** The exceptions a method of [Drawer] can end with: those of the
    calculator, and the [ValueError] of [int], [Equipment], [min] and [max]. *)
Inductive pyexn : Set :=
| Exn (e : exn)
| ValueError.

Inductive outcome (A : Type) : Type :=
| Returns (a : A)
| Raises (e : pyexn).

Arguments Returns {A} a.
Arguments Raises {A} e.

(** The object, the random generator and the calls made on the axes so far. *)
Record World : Type := mkWorld {
  self_ : Drawer;
  rng : Rng;
  axes : list AxesCall
}.

Definition Method (A : Type) : Type := World -> outcome A * World.

Definition bindW {A B : Type} (c : Method A) (k : A -> Method B) : Method B :=
  fun w =>
    match c w with
    | (Returns a, w') => k a w'
    | (Raises e, w') => (Raises e, w')
    end.

Notation "x <<- c ;; k" := (bindW c (fun x => k))
  (at level 61, c at next level, right associativity).
Notation "c ;;; k" := (bindW c (fun _ => k))
  (at level 61, right associativity).

Definition get_self : Method Drawer := fun w => (Returns (self_ w), w).

Definition set_self (d : Drawer) : Method unit :=
  fun w => (Returns tt, mkWorld d (rng w) (axes w)).

Definition call (c : AxesCall) : Method unit :=
  fun w => (Returns tt, mkWorld (self_ w) (rng w) (axes w ++ [c])).

(** A call into the calculator that does not use the generator. *)
Definition pure_call {A : Type} (c : result A) : Method A :=
  fun w =>
    match c with
    | Ok a => (Returns a, w)
    | Raise e => (Raises (Exn e), w)
    end.

(** A call into the calculator that may draw. *)
Definition drawing_call {A : Type} (c : M A) : Method A :=
  fun w =>
    match c (rng w) with
    | (Ok a, g') => (Returns a, mkWorld (self_ w) g' (axes w))
    | (Raise e, g') => (Raises (Exn e), mkWorld (self_ w) g' (axes w))
    end.

(** A built-in that raises [ValueError] where the option is [None]. *)
Definition or_ValueError {A : Type} (o : option A) : Method A :=
  fun w =>
    match o with
    | Some a => (Returns a, w)
    | None => (Raises ValueError, w)
    end.

(** [try: body  except ValueError: pass] *)
Definition try_except_ValueError (body : Method unit) : Method unit :=
  fun w =>
    match body w with
    | (Raises ValueError, w') => (Returns tt, w')
    | other => other
    end.

Fixpoint for_each {A : Type} (xs : list A) (body : A -> Method unit) : Method unit :=
  match xs with
  | [] => fun w => (Returns tt, w)
  | x :: rest => body x ;;; for_each rest body
  end.

(** [min(iterable)] and [max(iterable)]: [None] is the [ValueError] of an
    empty iterable; the first extremal element is kept. *)
Definition py_min (ys : list R) : option R :=
  match ys with
  | [] => None
  | y :: rest =>
      Some (fold_left (fun m item => if Rlt_dec item m then item else m) rest y)
  end.

Definition py_max (ys : list R) : option R :=
  match ys with
  | [] => None
  | y :: rest =>
      Some (fold_left (fun m item => if Rgt_dec item m then item else m) rest y)
  end.

(** [Equipment(value)], lines 9-13: [None] is the [ValueError] of a value
    that no member has. *)
Definition Equipment_value (e : Equipment) : Z :=
  match e with
  | LEFT => 1
  | RIGHT => 2
  | MIDDLE => 3
  | RANDOM => 4
  end.

Definition Equipment_of_value (v : Z) : option Equipment :=
  match v with
  | 1%Z => Some LEFT
  | 2%Z => Some RIGHT
  | 3%Z => Some MIDDLE
  | 4%Z => Some RANDOM
  | _ => None
  end.

(** lines 166-173 *)
Definition get_formula_text (self : Drawer) : result String.string :=
  match task (drawer_settings self) with
  | 2%Z => Ok "$y = e^x$"%string
  | 10%Z => Ok "$y = e^{2x}$"%string
  | 22%Z => Ok "$y = x^3$"%string
  | 26%Z => Ok "$y = e^{2x}$"%string
  | 31%Z => Ok "$y = 3^x$"%string
  | _ => Raise UnsupportedTask
  end.

(** lines 175-180 *)
Definition create_window : Method unit :=
  self <<- get_self ;;
  label <<- pure_call (get_formula_text self) ;;
  call (Axes_set_title label) ;;;
  call (Axes_set_xlim (start (drawer_settings self)) (end_ (drawer_settings self))) ;;;
  bottom <<- or_ValueError (py_min (map point_y (drawer_points self))) ;;
  top <<- or_ValueError (py_max (map point_y (drawer_points self))) ;;
  call (Axes_set_ylim (bottom - 1) (top + 1)) ;;;
  call Axes_grid ;;;
  call Axes_set_position.

(** lines 182-185 *)
Definition draw_integral_sum : Method unit :=
  self <<- get_self ;;
  rectangles <<- drawing_call (create_integral_shape self) ;;
  for_each rectangles (fun rectangle => call (Axes_add_patch rectangle)).

(** lines 188-194 *)
Definition settings_for_graph (self : Drawer) : Settings :=
  mkSettings (task (drawer_settings self)) (start (drawer_settings self))
    (end_ (drawer_settings self)) 1000000 RANDOM.

(** lines 187-196 *)
Definition draw_graph : Method unit :=
  self <<- get_self ;;
  points <<- pure_call (calculate_graph_points (settings_for_graph self)) ;;
  call (Axes_plot (map point_x points) (map point_y points)).

(** lines 198-202 *)
Definition Drawer_draw : Method unit :=
  call Axes_clear ;;;
  draw_graph ;;;
  draw_integral_sum ;;;
  create_window.

(** lines 149-151 *)
Definition Drawer_update : Method unit :=
  self <<- get_self ;;
  points <<- pure_call (calculate_graph_points (drawer_settings self)) ;;
  set_self (mkDrawer (drawer_settings self) points) ;;;
  Drawer_draw.

(** The assignment [self.__settings.<field> = value]. *)
Definition set_settings (settings : Settings) : Method unit :=
  self <<- get_self ;;
  set_self (mkDrawer settings (drawer_points self)).

Section Handlers.

(** [int(text)] of the language: [None] is its [ValueError]. *)
Variable int : String.string -> option Z.

(** lines 109-115 *)
Definition on_accuracy_change (text : String.string) : Method unit :=
  try_except_ValueError
    (new_accuracy <<- or_ValueError (int text) ;;
     self <<- get_self ;;
     let s := drawer_settings self in
     set_settings (mkSettings (task s) (start s) (end_ s) new_accuracy (equipment s)) ;;;
     Drawer_update).

(** lines 117-123 *)
Definition on_task_change (text : String.string) : Method unit :=
  try_except_ValueError
    (new_task <<- or_ValueError (int text) ;;
     self <<- get_self ;;
     let s := drawer_settings self in
     set_settings (mkSettings new_task (start s) (end_ s) (accuracy s) (equipment s)) ;;;
     Drawer_update).

(** lines 125-131 *)
Definition on_start_change (text : String.string) : Method unit :=
  try_except_ValueError
    (new_start <<- or_ValueError (int text) ;;
     self <<- get_self ;;
     let s := drawer_settings self in
     set_settings
       (mkSettings (task s) (IZR new_start) (end_ s) (accuracy s) (equipment s)) ;;;
     Drawer_update).

(** lines 133-139 *)
Definition on_end_change (text : String.string) : Method unit :=
  try_except_ValueError
    (new_end <<- or_ValueError (int text) ;;
     self <<- get_self ;;
     let s := drawer_settings self in
     set_settings
       (mkSettings (task s) (start s) (IZR new_end) (accuracy s) (equipment s)) ;;;
     Drawer_update).

(** lines 141-147 *)
Definition on_equipment_change (text : String.string) : Method unit :=
  try_except_ValueError
    (new_equipment <<- or_ValueError (int text) ;;
     member <<- or_ValueError (Equipment_of_value new_equipment) ;;
     self <<- get_self ;;
     let s := drawer_settings self in
     set_settings (mkSettings (task s) (start s) (end_ s) (accuracy s) member) ;;;
     Drawer_update).

End Handlers.

(** lines 214-217: the object is built and drawn, then the estimate of a
    second copy of the startup settings is printed.  The result is the number
    printed, with the generator and the calls on the axes at that point;
    [plt.show()] is the event loop and is left out. *)
Definition main (g : Rng) : outcome R * Rng * list AxesCall :=
  match Drawer_init read_settings with
  | Raise e => (Raises (Exn e), g, [])
  | Ok self =>
      let (printed, w) :=
        (Drawer_draw ;;; drawing_call (calculate_integral_sum read_settings))
          (mkWorld self g []) in
      (printed, rng w, axes w)
  end.

(** ** Vocabulary of the statements about the drawer *)

(** The points of the object are those of its settings. *)
Definition consistent (w : World) : Prop :=
  calculate_graph_points (drawer_settings (self_ w))
  = Ok (drawer_points (self_ w)).

(** The calls [draw] makes when nothing raises. *)
Definition drawing (self : Drawer) (rectangles : list Rectangle)
  (label : String.string) (bottom top : R) : list AxesCall :=
  [Axes_clear;
   Axes_plot (map point_x (samples (settings_for_graph self)))
     (map point_y (samples (settings_for_graph self)))]
  ++ map Axes_add_patch rectangles
  ++ [Axes_set_title label;
      Axes_set_xlim (start (drawer_settings self)) (end_ (drawer_settings self));
      Axes_set_ylim (bottom - 1) (top + 1);
      Axes_grid;
      Axes_set_position].

(** What a handler does once [int] has returned: the field is assigned,
    then [update], all inside the [try]. *)
Definition apply_edit (s' : Settings) : Method unit :=
  try_except_ValueError (set_settings s' ;;; Drawer_update).

(** The object after the assignment, before [update] has run. *)
Definition edited (s' : Settings) (w : World) : World :=
  mkWorld (mkDrawer s' (drawer_points (self_ w))) (rng w) (axes w).

(** The object after [update] has stored the new points. *)
Definition rebuilt (s' : Settings) (points : list Point) (w : World) : World :=
  mkWorld (mkDrawer s' points) (rng w) (axes w).

(** A method that never assigns to a field of the object. *)
Definition keeps_self {A : Type} (m : Method A) : Prop :=
  forall w, self_ (snd (m w)) = self_ w.

(** A reader of plain decimal numerals (an optional sign, then digits only),
    to stand for [int] in examples: on the texts it accepts it returns what
    [int] returns. *)
Fixpoint digits_value (text : String.string) (acc : Z) : option Z :=
  match text with
  | String.EmptyString => Some acc
  | String.String c rest =>
      let code := Z.of_nat (Ascii.nat_of_ascii c) in
      if ((48 <=? code) && (code <=? 57))%Z%bool
      then digits_value rest (10 * acc + (code - 48))%Z
      else None
  end.

Definition plain_int (text : String.string) : option Z :=
  match text with
  | String.EmptyString => None
  | String.String c rest =>
      match rest with
      | String.EmptyString => digits_value text 0
      | _ =>
          let code := Z.of_nat (Ascii.nat_of_ascii c) in
          if (code =? 45)%Z then option_map Z.opp (digits_value rest 0)
          else if (code =? 43)%Z then digits_value rest 0
          else digits_value text 0
      end
  end.

(** ** Configurations and generators used as examples *)

(** The cube on [0, 1], two subintervals, rule [LEFT]. *)
Definition cubic_left : Settings := mkSettings 22 0 1 2 LEFT.

(** The startup settings with a task outside the table. *)
Definition unknown_task : Settings := mkSettings 999 0 1 10 MIDDLE.


(** A generator whose every draw is one half. *)
Definition halves : Rng := fun _ => 1 / 2.

(** The exponential on [0, 1] with a thousand subintervals, rule [MIDDLE]. *)
Definition exp_thousand : Settings := mkSettings 2 0 1 1000 MIDDLE.


(** The world of a drawer just built from the startup settings. *)
Definition startup_world : World :=
  mkWorld (mkDrawer read_settings (samples read_settings)) halves [].


(** ** Basic facts *)

(** Membership of a literal id in the table. *)
Ltac in_table := unfold supported, formula_table; simpl; tauto.

Lemma supported_cases (t : Z) :
  supported t -> t = 2%Z \/ t = 10%Z \/ t = 22%Z \/ t = 26%Z \/ t = 31%Z.
Proof.
  unfold supported, formula_table; simpl; intuition.
Qed.

Lemma get_formula_value_at_supported (x : R) (s : Settings) :
  supported (task s) -> get_formula_value_at x s = Ok (value_at x s).
Proof.
  intros H; apply supported_cases in H.
  unfold value_at, get_formula_value_at.
  destruct H as [-> | [-> | [-> | [-> | ->]]]]; reflexivity.
Qed.

Lemma get_formula_value_at_unsupported (x : R) (s : Settings) :
  ~ supported (task s) -> get_formula_value_at x s = Raise UnsupportedTask.
Proof.
  intros H. unfold get_formula_value_at.
  destruct (task s) as [| p | p] eqn:E; try reflexivity.
  repeat (destruct p as [p | p |]; try reflexivity);
    exfalso; apply H; unfold supported, formula_table; simpl; tauto.
Qed.

Lemma calculate_delta_x_ok (s : Settings) :
  accuracy s <> 0%Z ->
  calculate_delta_x s = Ok ((end_ s - start s) / IZR (accuracy s)).
Proof.
  intros H. unfold calculate_delta_x.
  destruct (Z.eqb_spec (accuracy s) 0); [contradiction | reflexivity].
Qed.

Lemma math_e_pow (x : R) : Rpower math_e x = exp x.
Proof.
  unfold Rpower, math_e. rewrite ln_exp. f_equal; lra.
Qed.

Lemma length_range (n : Z) : length (range n) = Z.to_nat n.
Proof.
  unfold range. rewrite length_map, length_seq. reflexivity.
Qed.

Lemma nth_error_range (n : Z) (i : nat) :
  (i < Z.to_nat n)%nat -> nth_error (range n) i = Some (Z.of_nat i).
Proof.
  intros H. unfold range.
  rewrite nth_error_map, nth_error_seq.
  destruct (Nat.ltb_spec i (Z.to_nat n)); [reflexivity | lia].
Qed.

(** The two loops on a supported task: neither raises, and each is the
    evident pure iteration. *)
Lemma points_loop_supported (s : Settings) (w : R) (idx : list Z) (acc : list Point) :
  supported (task s) ->
  for_in idx
    (fun i points =>
       let x := start s + IZR i * w in
       y <- get_formula_value_at x s ;; Ok (points ++ [mkPoint x y]))
    acc
  = Ok (acc ++ map (fun i => mkPoint (abscissa s w i) (value_at (abscissa s w i) s)) idx).
Proof.
  intros Hs. revert acc.
  induction idx as [| i rest IH]; intros acc; simpl.
  - now rewrite app_nil_r.
  - rewrite (get_formula_value_at_supported _ _ Hs); simpl.
    rewrite IH, <- app_assoc. reflexivity.
Qed.

Lemma sum_loop_supported (s : Settings) (w : R) (idx : list Z) (acc : R) :
  supported (task s) ->
  for_in idx
    (fun i integral_sum =>
       let x := start s + IZR i * w in
       y <- get_formula_value_at x s ;; Ok (integral_sum + w * y))
    acc
  = Ok (fold_left (fun a i => a + w * value_at (abscissa s w i) s) idx acc).
Proof.
  intros Hs. revert acc.
  induction idx as [| i rest IH]; intros acc; simpl.
  - reflexivity.
  - rewrite (get_formula_value_at_supported _ _ Hs); simpl.
    apply IH.
Qed.

Lemma calculate_graph_points_supported (s : Settings) :
  accuracy s <> 0%Z -> supported (task s) ->
  let w := (end_ s - start s) / IZR (accuracy s) in
  calculate_graph_points s
  = Ok (map (fun i => mkPoint (abscissa s w i) (value_at (abscissa s w i) s))
          (range (accuracy s + 1))).
Proof.
  intros Ha Hs w. unfold calculate_graph_points.
  rewrite (calculate_delta_x_ok _ Ha); simpl.
  now rewrite (points_loop_supported s _ _ [] Hs).
Qed.

(** What [calculate_integral_sum] returns on a supported task: the raw sum
    minus the correction of the rule; only [RANDOM] consumes a draw. *)
Lemma calculate_integral_sum_supported (s : Settings) (g : Rng) :
  accuracy s <> 0%Z -> supported (task s) ->
  let w := (end_ s - start s) / IZR (accuracy s) in
  let y0 := value_at (start s) s in
  let y1 := value_at (end_ s) s in
  calculate_integral_sum s g =
  match equipment s with
  | LEFT => (Ok (raw_sum s w - y0 * w), g)
  | RIGHT => (Ok (raw_sum s w - y1 * w), g)
  | MIDDLE => (Ok (raw_sum s w - ((y0 + y1) / 2) * w), g)
  | RANDOM =>
      let shift := 0 + (w - 0) * g 0%nat in
      (Ok (raw_sum s w - (y0 * shift + y1 * (w - shift))), fun n => g (S n))
  end.
Proof.
  intros Ha Hs w y0 y1.
  unfold calculate_integral_sum, calculate_integral_shape_shift, bindM, lift.
  rewrite (calculate_delta_x_ok _ Ha). fold w.
  rewrite (sum_loop_supported s w _ 0 Hs). fold (raw_sum s w).
  rewrite !(get_formula_value_at_supported _ _ Hs). fold y0 y1.
  destruct (equipment s); reflexivity.
Qed.

(** ** The worked example of the specification *)

(** C1: for task 22 (the cube) on [0, 1] with two subintervals and the
    [LEFT] rule, [calculate_graph_points] returns the three samples (0, 0),
    (0.5, 0.125), (1, 1) and [calculate_integral_sum] returns 0.5625,
    whatever the state of the random generator, which it leaves untouched. *)
Theorem cubic_left_example :
  calculate_graph_points cubic_left
  = Ok [mkPoint 0 0; mkPoint 0.5 0.125; mkPoint 1 1]
  /\ forall g : Rng, calculate_integral_sum cubic_left g = (Ok 0.5625, g).
Proof.
  split.
  - unfold calculate_graph_points, cubic_left, range; simpl.
    apply f_equal.
    repeat (apply f_equal2; [apply f_equal2; lra | ]).
    reflexivity.
  - intros g.
    unfold calculate_integral_sum, calculate_integral_shape_shift, cubic_left,
      bindM, lift, ret, range; simpl.
    apply f_equal2; [apply f_equal; lra | reflexivity].
Qed.

(** ** The sample grid *)

Lemma nth_error_samples (s : Settings) (w : R) (m : Z) (i : nat) (p : Point) :
  nth_error
    (map (fun i => mkPoint (abscissa s w i) (value_at (abscissa s w i) s)) (range m)) i
  = Some p ->
  (i < Z.to_nat m)%nat
  /\ p = mkPoint (start s + INR i * w) (value_at (start s + INR i * w) s).
Proof.
  intros H.
  assert (Hi : (i < Z.to_nat m)%nat).
  { rewrite <- (length_range m), <- (length_map
      (fun i => mkPoint (abscissa s w i) (value_at (abscissa s w i) s))).
    apply nth_error_Some. congruence. }
  split; [exact Hi |].
  rewrite nth_error_map, (nth_error_range _ _ Hi) in H; simpl in H.
  injection H as <-. unfold abscissa. now rewrite <- INR_IZR_INZ.
Qed.




(** ** Unsupported tasks *)

Lemma range_succ_nonempty (n : Z) :
  (0 <= n)%Z -> exists rest, range (n + 1) = 0%Z :: rest.
Proof.
  intros Hn. unfold range.
  replace (Z.to_nat (n + 1)) with (S (Z.to_nat n)) by lia.
  simpl. eexists; reflexivity.
Qed.

Lemma range_nonpositive (n : Z) : (n <= 0)%Z -> range n = [].
Proof.
  intros Hn. unfold range.
  replace (Z.to_nat n) with 0%nat by lia. reflexivity.
Qed.

Lemma unsupported_999 : ~ supported 999.
Proof.
  unfold supported, formula_table; simpl. intuition discriminate.
Qed.

(** C3: [get_formula_value_at] returns 1 at 0 for task 31 and for task 2;
    for task 999, and for every task outside the table, it raises
    'Unsupported task' at every [x]; [calculate_graph_points] (when it has a
    sample to evaluate, i.e. [accuracy >= 1]) and [calculate_integral_sum]
    (when the width is defined, i.e. [accuracy <> 0]) end with that same
    exception: neither catches it. *)
Theorem unsupported_task_propagates :
  (forall s, task s = 31%Z -> get_formula_value_at 0 s = Ok 1)
  /\ (forall s, task s = 2%Z -> get_formula_value_at 0 s = Ok 1)
  /\ (forall s x, task s = 999%Z -> get_formula_value_at x s = Raise UnsupportedTask)
  /\ (forall s x, ~ supported (task s) ->
        get_formula_value_at x s = Raise UnsupportedTask)
  /\ (forall s, ~ supported (task s) -> (1 <= accuracy s)%Z ->
        calculate_graph_points s = Raise UnsupportedTask)
  /\ (forall s g, ~ supported (task s) -> accuracy s <> 0%Z ->
        fst (calculate_integral_sum s g) = Raise UnsupportedTask).
Proof.
  repeat split.
  - intros s H. unfold get_formula_value_at. rewrite H.
    unfold Rpower. now rewrite Rmult_0_l, exp_0.
  - intros s H. unfold get_formula_value_at. rewrite H.
    unfold Rpower. now rewrite Rmult_0_l, exp_0.
  - intros s x H. apply get_formula_value_at_unsupported.
    rewrite H. exact unsupported_999.
  - intros s x H. now apply get_formula_value_at_unsupported.
  - intros s Hs Ha. unfold calculate_graph_points.
    rewrite calculate_delta_x_ok by lia; simpl.
    destruct (range_succ_nonempty (accuracy s)) as [rest ->]; [lia |].
    simpl. now rewrite get_formula_value_at_unsupported.
  - intros s g Hs Ha.
    unfold calculate_integral_sum, calculate_integral_shape_shift, bindM, lift,
      ret, draw, random_uniform, random_random.
    rewrite calculate_delta_x_ok by assumption.
    destruct (Z_le_gt_dec 1 (accuracy s)) as [Hpos | Hneg].
    + destruct (range_succ_nonempty (accuracy s)) as [rest ->]; [lia |].
      simpl. rewrite get_formula_value_at_unsupported by assumption.
      destruct (equipment s); reflexivity.
    + rewrite range_nonpositive by lia. simpl.
      rewrite !get_formula_value_at_unsupported by assumption.
      destruct (equipment s); reflexivity.
Qed.

(** A configuration at which C3 applies: the startup settings with task 999. *)
Lemma unsupported_task_propagates_witness :
  ~ supported (task unknown_task)
  /\ (1 <= accuracy unknown_task)%Z
  /\ calculate_graph_points unknown_task = Raise UnsupportedTask
  /\ forall g, fst (calculate_integral_sum unknown_task g) = Raise UnsupportedTask.
Proof.
  assert (Hs : ~ supported (task unknown_task)) by exact unsupported_999.
  assert (Ha : (1 <= accuracy unknown_task)%Z) by (simpl; lia).
  assert (Ha0 : accuracy unknown_task <> 0%Z) by (simpl; lia).
  destruct unsupported_task_propagates as (_ & _ & _ & _ & Hp & Hi).
  split; [exact Hs |].
  split; [exact Ha |].
  split.
  - exact (Hp unknown_task Hs Ha).
  - intros g. exact (Hi unknown_task g Hs Ha0).
Defined.

(** ** The three deterministic rules and the random one *)

Lemma cube_monotone (a b : R) : a <= b -> a ^ 3 <= b ^ 3.
Proof.
  intros Hab. simpl.
  assert (H : 0 <= a * a + a * b + b * b).
  { pose proof (Rle_0_sqr (a + b / 2)) as H1.
    pose proof (Rle_0_sqr b) as H2. unfold Rsqr in *. nra. }
  assert (H' : 0 <= (b - a) * (a * a + a * b + b * b)).
  { apply Rmult_le_pos; lra. }
  nra.
Qed.

Lemma math_e_ge_1 : 1 <= math_e.
Proof.
  unfold math_e. rewrite <- exp_0 at 1.
  left. apply exp_increasing. lra.
Qed.

(** Each formula of the table is nondecreasing on the whole line. *)
Lemma value_at_monotone (s : Settings) (a b : R) :
  supported (task s) -> a <= b -> value_at a s <= value_at b s.
Proof.
  intros Hs Hab. apply supported_cases in Hs.
  unfold value_at, get_formula_value_at.
  destruct Hs as [-> | [-> | [-> | [-> | ->]]]].
  - apply Rle_Rpower; [exact math_e_ge_1 | exact Hab].
  - apply Rle_Rpower; [exact math_e_ge_1 | lra].
  - now apply cube_monotone.
  - apply Rle_Rpower; [exact math_e_ge_1 | lra].
  - apply Rle_Rpower; [lra | exact Hab].
Qed.

(** The estimate of a rule [e] on the fields of [s], as the function returns
    it.  The raw sum and the two end ordinates do not depend on the rule. *)
Lemma rule_estimate (e : Equipment) (s : Settings) (g : Rng) :
  accuracy s <> 0%Z -> supported (task s) ->
  let w := (end_ s - start s) / IZR (accuracy s) in
  let y0 := value_at (start s) s in
  let y1 := value_at (end_ s) s in
  calculate_integral_sum (with_equipment e s) g =
  match e with
  | LEFT => (Ok (raw_sum s w - y0 * w), g)
  | RIGHT => (Ok (raw_sum s w - y1 * w), g)
  | MIDDLE => (Ok (raw_sum s w - ((y0 + y1) / 2) * w), g)
  | RANDOM =>
      let shift := 0 + (w - 0) * g 0%nat in
      (Ok (raw_sum s w - (y0 * shift + y1 * (w - shift))), fun n => g (S n))
  end.
Proof.
  intros Ha Hs.
  exact (calculate_integral_sum_supported (with_equipment e s) g Ha Hs).
Qed.

(** C10: in real arithmetic the [MIDDLE] result is the mean of the [LEFT]
    and [RIGHT] results of the same configuration. *)
Theorem middle_is_mean_of_left_right (s : Settings) (g : Rng) :
  (1 <= accuracy s)%Z -> supported (task s) ->
  exists l r m : R,
    calculate_integral_sum (with_equipment LEFT s) g = (Ok l, g)
    /\ calculate_integral_sum (with_equipment RIGHT s) g = (Ok r, g)
    /\ calculate_integral_sum (with_equipment MIDDLE s) g = (Ok m, g)
    /\ m = (l + r) / 2.
Proof.
  intros Ha Hs.
  assert (Ha0 : accuracy s <> 0%Z) by lia.
  do 3 eexists.
  rewrite (rule_estimate LEFT s g Ha0 Hs), (rule_estimate RIGHT s g Ha0 Hs),
    (rule_estimate MIDDLE s g Ha0 Hs).
  repeat (split; [reflexivity |]).
  field. now apply not_0_IZR.
Qed.

(** C10 at the startup settings. *)
Lemma middle_is_mean_of_left_right_witness :
  (1 <= accuracy read_settings)%Z
  /\ supported (task read_settings)
  /\ exists l r m : R,
       calculate_integral_sum (with_equipment LEFT read_settings) (fun _ => 0)
       = (Ok l, fun _ => 0)
       /\ calculate_integral_sum (with_equipment RIGHT read_settings) (fun _ => 0)
          = (Ok r, fun _ => 0)
       /\ calculate_integral_sum (with_equipment MIDDLE read_settings) (fun _ => 0)
          = (Ok m, fun _ => 0)
       /\ m = (l + r) / 2.
Proof.
  assert (Ha : (1 <= accuracy read_settings)%Z) by (simpl; lia).
  assert (Hs : supported (task read_settings)) by in_table.
  split; [exact Ha |].
  split; [exact Hs |].
  exact (middle_is_mean_of_left_right read_settings (fun _ => 0) Ha Hs).
Defined.






(** ** Determinism of the three fixed rules *)

Lemma shape_shift_keeps_generator (s : Settings) (g : Rng) :
  equipment s <> RANDOM ->
  calculate_integral_shape_shift s g
  = (fst (calculate_integral_shape_shift s (fun _ => 0)), g).
Proof.
  intros He.
  unfold calculate_integral_shape_shift, bindM, lift, ret.
  destruct (calculate_delta_x s) as [w | e]; [| reflexivity].
  destruct (equipment s); try reflexivity. contradiction.
Qed.

(** C6: under [LEFT], [RIGHT] or [MIDDLE], [calculate_integral_sum] does not
    depend on the random generator and does not advance it, although it calls
    [calculate_integral_shape_shift] every time: two calls on the same
    settings return the same result (value or exception) whatever the
    generator states they run in. *)
Theorem calculate_integral_sum_deterministic (s : Settings) (g1 g2 : Rng) :
  equipment s <> RANDOM ->
  fst (calculate_integral_sum s g1) = fst (calculate_integral_sum s g2)
  /\ snd (calculate_integral_sum s g1) = g1
  /\ snd (calculate_integral_sum s g2) = g2.
Proof.
  intros He.
  assert (H : forall g, calculate_integral_sum s g
                        = (fst (calculate_integral_sum s (fun _ => 0)), g)).
  { intros g. unfold calculate_integral_sum, bindM, lift.
    destruct (calculate_delta_x s) as [w | e]; [| reflexivity].
    rewrite (shape_shift_keeps_generator s g He).
    rewrite (shape_shift_keeps_generator s (fun _ => 0) He).
    destruct (fst (calculate_integral_shape_shift s (fun _ => 0))) as [shift | e];
      [| reflexivity].
    destruct (for_in _ _ _) as [total | e]; reflexivity. }
  rewrite (H g1), (H g2). simpl. repeat split.
Qed.

(** C6 at the startup settings (rule [MIDDLE]) under two generators. *)
Lemma calculate_integral_sum_deterministic_witness :
  equipment read_settings <> RANDOM
  /\ fst (calculate_integral_sum read_settings halves)
     = fst (calculate_integral_sum read_settings (fun _ => 0))
  /\ snd (calculate_integral_sum read_settings halves) = halves.
Proof.
  assert (He : equipment read_settings <> RANDOM) by (simpl; discriminate).
  split; [exact He |].
  destruct (calculate_integral_sum_deterministic read_settings halves (fun _ => 0) He)
    as (H1 & H2 & _).
  split; [exact H1 | exact H2].
Defined.

(** ** The duplicated formula *)

(** C7: tasks 10 and 26 are two separate cases of [get_formula_value_at],
    each returning [e ** (2 * x)], which is [exp (2 * x)]: the values agree at
    every [x], both ids are in the table and they are different ids. *)
Theorem tasks_10_and_26_agree (x : R) (s10 s26 : Settings) :
  task s10 = 10%Z -> task s26 = 26%Z ->
  get_formula_value_at x s10 = get_formula_value_at x s26
  /\ get_formula_value_at x s10 = Ok (exp (2 * x))
  /\ supported (task s10) /\ supported (task s26)
  /\ task s10 <> task s26.
Proof.
  intros H10 H26.
  unfold get_formula_value_at, supported, formula_table.
  rewrite H10, H26, math_e_pow. simpl.
  repeat split; try tauto. discriminate.
Qed.

(** C7 at [x = 1]. *)
Lemma tasks_10_and_26_agree_witness :
  task (with_task 10 read_settings) = 10%Z
  /\ task (with_task 26 read_settings) = 26%Z
  /\ get_formula_value_at 1 (with_task 10 read_settings)
     = get_formula_value_at 1 (with_task 26 read_settings).
Proof.
  split; [reflexivity |].
  split; [reflexivity |].
  exact (proj1 (tasks_10_and_26_agree 1 (with_task 10 read_settings)
                  (with_task 26 read_settings) eq_refl eq_refl)).
Defined.

(** ** The rectangles of the drawing *)

Lemma rectangles_loop (w shift : R) (points : list Point) (acc : list Rectangle) :
  fold_left
    (fun rectangles point =>
       rectangles ++ [create_integral_rectangle point w shift])
    points acc
  = acc ++ map (fun point => create_integral_rectangle point w shift) points.
Proof.
  revert acc. induction points as [| p rest IH]; intros acc; simpl.
  - now rewrite app_nil_r.
  - rewrite IH, <- app_assoc. reflexivity.
Qed.

Lemma shape_shift_ok (s : Settings) (g : Rng) :
  accuracy s <> 0%Z ->
  exists shift g', calculate_integral_shape_shift s g = (Ok shift, g').
Proof.
  intros Ha. unfold calculate_integral_shape_shift, bindM, lift.
  rewrite (calculate_delta_x_ok s Ha).
  destruct (equipment s); do 2 eexists; reflexivity.
Qed.

(** The rectangles of a drawer built from [s]: the samples of [s], each
    turned into a rectangle by [create_integral_rectangle] with the width and
    the shift of this call. *)
Lemma create_integral_shape_supported (s : Settings) (g : Rng) :
  accuracy s <> 0%Z -> supported (task s) ->
  let w := (end_ s - start s) / IZR (accuracy s) in
  let samples :=
    map (fun i => mkPoint (abscissa s w i) (value_at (abscissa s w i) s))
      (range (accuracy s + 1)) in
  exists (shift : R) (g' : Rng),
    Drawer_init s = Ok (mkDrawer s samples)
    /\ calculate_integral_shape_shift s g = (Ok shift, g')
    /\ create_integral_shape (mkDrawer s samples) g
       = (Ok (map (fun point => create_integral_rectangle point w shift) samples), g').
Proof.
  intros Ha Hs w samples.
  destruct (shape_shift_ok s g Ha) as (shift & g' & Hshift).
  pose proof (calculate_graph_points_supported s Ha Hs) as Hpts;
    cbv zeta in Hpts; fold w in Hpts; fold samples in Hpts.
  exists shift, g'.
  split; [unfold Drawer_init; rewrite Hpts; reflexivity |].
  split; [exact Hshift |].
  unfold create_integral_shape, bindM, lift, ret; simpl.
  rewrite (calculate_delta_x_ok s Ha), Hshift. fold w.
  rewrite rectangles_loop. reflexivity.
Qed.

(** C8, as the code has it: a drawer built from settings with at least one
    subinterval and a supported task yields one rectangle per sample point,
    [accuracy + 1] of them; the [i]-th has its left edge at
    [x_i - shift] for the shift [calculate_integral_shape_shift] returns in
    that call, its base on the axis, width [w = (end - start) / accuracy] and
    height [y_i]. *)
Theorem create_integral_shape_rectangles (s : Settings) (g : Rng) :
  (1 <= accuracy s)%Z -> supported (task s) ->
  let w := (end_ s - start s) / IZR (accuracy s) in
  exists (d : Drawer) (shift : R) (g' : Rng) (rectangles : list Rectangle),
    Drawer_init s = Ok d
    /\ calculate_integral_shape_shift s g = (Ok shift, g')
    /\ create_integral_shape d g = (Ok rectangles, g')
    /\ Z.of_nat (length rectangles) = (accuracy s + 1)%Z
    /\ forall i r, nth_error rectangles i = Some r ->
         rect_x r = start s + INR i * w - shift
         /\ rect_y r = 0
         /\ rect_width r = w
         /\ get_formula_value_at (start s + INR i * w) s = Ok (rect_height r).
Proof.
  intros Ha Hs w.
  assert (Ha0 : accuracy s <> 0%Z) by lia.
  destruct (create_integral_shape_supported s g Ha0 Hs)
    as (shift & g' & Hd & Hshift & Hrect).
  fold w in Hd, Hrect.
  set (F := fun i => mkPoint (abscissa s w i) (value_at (abscissa s w i) s)) in *.
  exists (mkDrawer s (map F (range (accuracy s + 1)))), shift, g'.
  eexists.
  split; [exact Hd |].
  split; [exact Hshift |].
  split; [exact Hrect |].
  split.
  { rewrite !length_map, length_range. lia. }
  intros i r Hr.
  rewrite nth_error_map in Hr.
  destruct (nth_error (map F (range (accuracy s + 1))) i) as [p |] eqn:Hp;
    [| discriminate].
  apply nth_error_samples in Hp. destruct Hp as [_ ->].
  injection Hr as <-. simpl.
  repeat split. now apply get_formula_value_at_supported.
Qed.

(** C8 as amended, at the cube on [0, 1] with two subintervals. *)
Lemma create_integral_shape_rectangles_witness :
  (1 <= accuracy cubic_left)%Z
  /\ supported (task cubic_left)
  /\ exists (d : Drawer) (rectangles : list Rectangle),
       Drawer_init cubic_left = Ok d
       /\ fst (create_integral_shape d halves) = Ok rectangles
       /\ Z.of_nat (length rectangles) = 3%Z.
Proof.
  assert (Ha : (1 <= accuracy cubic_left)%Z) by (simpl; lia).
  assert (Hs : supported (task cubic_left)) by in_table.
  split; [exact Ha |].
  split; [exact Hs |].
  destruct (create_integral_shape_rectangles cubic_left halves Ha Hs)
    as (d & shift & g' & rectangles & Hd & Hshift & Hrect & Hlen & _).
  exists d, rectangles.
  split; [exact Hd |].
  split; [| exact Hlen].
  rewrite Hrect. reflexivity.
Defined.

(** C8, as the specification words it (one rectangle per subinterval, that
    is [accuracy] rectangles), fails: for the cube on [0, 1] with two
    subintervals the drawer yields three rectangles. *)
Lemma one_rectangle_per_subinterval_fails :
  ~ (forall (s : Settings) (d : Drawer) (g : Rng) (rectangles : list Rectangle),
       (1 <= accuracy s)%Z -> supported (task s) ->
       Drawer_init s = Ok d ->
       fst (create_integral_shape d g) = Ok rectangles ->
       Z.of_nat (length rectangles) = accuracy s).
Proof.
  intros H.
  assert (Ha : (1 <= accuracy cubic_left)%Z) by (simpl; lia).
  assert (Ha0 : accuracy cubic_left <> 0%Z) by (simpl; lia).
  assert (Hs : supported (task cubic_left)) by in_table.
  destruct (create_integral_shape_supported cubic_left halves Ha0 Hs)
    as (shift & g' & Hd & _ & Hrect).
  pose proof (H cubic_left _ halves _ Ha Hs Hd (f_equal fst Hrect)) as Hlen.
  cbn [fst] in Hlen.
  rewrite !length_map, length_range in Hlen. simpl in Hlen. lia.
Qed.

(** ** What the three fixed rules compute *)

Lemma partial_sum_ext (f h : nat -> R) (k : nat) :
  (forall i, (i < k)%nat -> f i = h i) -> partial_sum f k = partial_sum h k.
Proof.
  induction k as [| k IH]; intros H; simpl; [reflexivity |].
  rewrite IH, H by (intros; try apply H; lia). reflexivity.
Qed.

Lemma partial_sum_le (f h : nat -> R) (k : nat) :
  (forall i, (i < k)%nat -> f i <= h i) -> partial_sum f k <= partial_sum h k.
Proof.
  induction k as [| k IH]; intros H; simpl; [lra |].
  assert (partial_sum f k <= partial_sum h k) by (apply IH; intros; apply H; lia).
  assert (f k <= h k) by (apply H; lia).
  lra.
Qed.

Lemma partial_sum_shift (f : nat -> R) (k : nat) :
  partial_sum f (S k) = f 0%nat + partial_sum (fun i => f (S i)) k.
Proof.
  induction k as [| k IH].
  - simpl. lra.
  - change (partial_sum f (S (S k))) with (partial_sum f (S k) + f (S k)).
    rewrite IH. simpl. lra.
Qed.

Lemma partial_sum_mean (f h : nat -> R) (k : nat) :
  partial_sum (fun i => (f i + h i) / 2) k
  = (partial_sum f k + partial_sum h k) / 2.
Proof.
  induction k as [| k IH]; simpl; [lra |]. rewrite IH. lra.
Qed.

Lemma partial_sum_telescope (F : nat -> R) (k : nat) :
  partial_sum (fun i => F (S i) - F i) k = F k - F 0%nat.
Proof.
  induction k as [| k IH]; simpl; [lra |]. rewrite IH. lra.
Qed.

Lemma fold_range_partial_sum (h : Z -> R) (m : Z) (a : R) :
  fold_left (fun acc i => acc + h i) (range m) a
  = a + partial_sum (fun i => h (Z.of_nat i)) (Z.to_nat m).
Proof.
  unfold range. induction (Z.to_nat m) as [| k IH]; [simpl; lra |].
  rewrite seq_S, map_app, fold_left_app, IH. simpl. lra.
Qed.

Lemma raw_sum_partial_sum (s : Settings) :
  raw_sum s (width s)
  = partial_sum (fun i => width s * sample_y s i) (Z.to_nat (accuracy s + 1)).
Proof.
  unfold raw_sum.
  rewrite (fold_range_partial_sum
             (fun i => width s * value_at (abscissa s (width s) i) s)).
  rewrite Rplus_0_l. apply partial_sum_ext. intros i _.
  unfold sample_y, sample_x, abscissa. now rewrite <- INR_IZR_INZ.
Qed.

Lemma sample_x_first (s : Settings) : sample_x s 0 = start s.
Proof. unfold sample_x. simpl. lra. Qed.

Lemma sample_x_last (s : Settings) :
  (1 <= accuracy s)%Z -> sample_x s (Z.to_nat (accuracy s)) = end_ s.
Proof.
  intros Ha. unfold sample_x, width.
  rewrite INR_IZR_INZ, Z2Nat.id by lia.
  field. apply not_0_IZR. lia.
Qed.

Lemma sample_x_next (s : Settings) (i : nat) :
  sample_x s (S i) = sample_x s i + width s.
Proof. unfold sample_x. rewrite S_INR. lra. Qed.

Lemma width_nonneg (s : Settings) :
  (1 <= accuracy s)%Z -> start s <= end_ s -> 0 <= width s.
Proof.
  intros Ha Hle. unfold width.
  assert (0 < IZR (accuracy s)) by (apply IZR_lt; lia).
  apply Rmult_le_pos; [lra |]. left. now apply Rinv_0_lt_compat.
Qed.

Lemma partial_sum_scal (c : R) (f : nat -> R) (k : nat) :
  partial_sum (fun i => c * f i) k = c * partial_sum f k.
Proof.
  induction k as [| k IH]; simpl; [lra |]. rewrite IH. lra.
Qed.

Lemma partial_sum_reverse (f : nat -> R) (n : nat) :
  partial_sum (fun i => f (n - i)%nat) (S n) = partial_sum f (S n).
Proof.
  induction n as [| n IH]; [reflexivity |].
  rewrite partial_sum_shift.
  rewrite (partial_sum_ext (fun i => f (S n - S i)%nat) (fun i => f (n - i)%nat))
    by reflexivity.
  rewrite IH. simpl. lra.
Qed.

(** The raw sum without its first term, and without its last. *)
Lemma raw_sum_drop_first (s : Settings) :
  (1 <= accuracy s)%Z ->
  raw_sum s (width s) - value_at (start s) s * width s
  = partial_sum (fun i => width s * sample_y s (S i)) (Z.to_nat (accuracy s)).
Proof.
  intros Ha. rewrite raw_sum_partial_sum.
  replace (Z.to_nat (accuracy s + 1)) with (S (Z.to_nat (accuracy s))) by lia.
  rewrite partial_sum_shift. unfold sample_y at 1. rewrite sample_x_first. lra.
Qed.

Lemma raw_sum_drop_last (s : Settings) :
  (1 <= accuracy s)%Z ->
  raw_sum s (width s) - value_at (end_ s) s * width s
  = partial_sum (fun i => width s * sample_y s i) (Z.to_nat (accuracy s)).
Proof.
  intros Ha. rewrite raw_sum_partial_sum.
  replace (Z.to_nat (accuracy s + 1)) with (S (Z.to_nat (accuracy s))) by lia.
  cbn [partial_sum]. unfold sample_y at 2. rewrite (sample_x_last s Ha). lra.
Qed.

(** X1: what the correction leaves of the [accuracy + 1] terms.  [LEFT]
    drops the first sample, so it adds the ordinates at the right ends of the
    subintervals; [RIGHT] drops the last one and adds the ordinates at the
    left ends; [MIDDLE] is the trapezoid rule. *)
Theorem rules_as_endpoint_sums (s : Settings) (g : Rng) :
  (1 <= accuracy s)%Z -> supported (task s) ->
  let n := Z.to_nat (accuracy s) in
  calculate_integral_sum (with_equipment LEFT s) g
  = (Ok (partial_sum (fun i => width s * sample_y s (S i)) n), g)
  /\ calculate_integral_sum (with_equipment RIGHT s) g
     = (Ok (partial_sum (fun i => width s * sample_y s i) n), g)
  /\ calculate_integral_sum (with_equipment MIDDLE s) g
     = (Ok (partial_sum
              (fun i => width s * ((sample_y s i + sample_y s (S i)) / 2)) n), g).
Proof.
  intros Ha Hs n.
  assert (Ha0 : accuracy s <> 0%Z) by lia.
  rewrite (rule_estimate LEFT s g Ha0 Hs), (rule_estimate RIGHT s g Ha0 Hs),
    (rule_estimate MIDDLE s g Ha0 Hs).
  cbv zeta. fold (width s).
  pose proof (raw_sum_drop_first s Ha) as Hfirst.
  pose proof (raw_sum_drop_last s Ha) as Hlast.
  fold n in Hfirst, Hlast.
  split; [| split]; apply f_equal2; try reflexivity; apply f_equal.
  - exact Hfirst.
  - exact Hlast.
  - rewrite (partial_sum_ext
               (fun i => width s * ((sample_y s i + sample_y s (S i)) / 2))
               (fun i => (width s * sample_y s i + width s * sample_y s (S i)) / 2))
      by (intros; lra).
    rewrite partial_sum_mean, <- Hfirst, <- Hlast. lra.
Qed.

(** X1 at the cube on [0, 1] with two subintervals. *)
Lemma rules_as_endpoint_sums_witness :
  (1 <= accuracy cubic_left)%Z
  /\ supported (task cubic_left)
  /\ calculate_integral_sum (with_equipment LEFT cubic_left) halves
     = (Ok (partial_sum (fun i => width cubic_left * sample_y cubic_left (S i)) 2),
        halves).
Proof.
  assert (Ha : (1 <= accuracy cubic_left)%Z) by (simpl; lia).
  assert (Hs : supported (task cubic_left)) by in_table.
  split; [exact Ha |].
  split; [exact Hs |].
  exact (proj1 (rules_as_endpoint_sums cubic_left halves Ha Hs)).
Defined.

(** ** The estimates against the integral *)

Lemma exp_scaled_derivative (c x : R) :
  c <> 0 -> derivable_pt_lim (fun t => exp (c * t) / c) x (exp (c * x)).
Proof.
  intros Hc.
  replace (exp (c * x)) with (exp (c * x) * (c * 1) / c) by (field; exact Hc).
  apply derivable_pt_lim_div_scal.
  apply (derivable_pt_lim_comp (mult_real_fct c id) exp).
  - apply derivable_pt_lim_scal, derivable_pt_lim_id.
  - apply derivable_pt_lim_exp.
Qed.

Lemma ln_3_pos : 0 < ln 3.
Proof. rewrite <- ln_1. apply ln_increasing; lra. Qed.

(** The derivative of [primitive] is the formula of the task. *)
Lemma primitive_derivative (s : Settings) (x : R) :
  supported (task s) ->
  derivable_pt_lim (fun t => primitive t s) x (value_at x s).
Proof.
  intros Hs. apply supported_cases in Hs.
  unfold primitive, value_at, get_formula_value_at.
  destruct Hs as [-> | [-> | [-> | [-> | ->]]]]; rewrite ?math_e_pow.
  - apply derivable_pt_lim_exp.
  - apply exp_scaled_derivative. lra.
  - replace (x ^ 3) with (INR 4 * x ^ pred 4 / 4) by (simpl; field).
    apply derivable_pt_lim_div_scal, derivable_pt_lim_pow.
  - apply exp_scaled_derivative. lra.
  - unfold Rpower.
    apply derivable_pt_lim_ext with (f := fun t => exp (ln 3 * t) / ln 3).
    + intros z. now rewrite (Rmult_comm z).
    + rewrite (Rmult_comm x). apply exp_scaled_derivative.
      apply Rgt_not_eq, ln_3_pos.
Qed.

(** On a step of width [w >= 0] the primitive grows by at least [w] times
    the formula at the left end and at most [w] times it at the right end. *)
Lemma exp_scaled_step (c x w : R) :
  0 < c -> 0 <= w ->
  w * exp (c * x) <= exp (c * (x + w)) / c - exp (c * x) / c
  /\ exp (c * (x + w)) / c - exp (c * x) / c <= w * exp (c * (x + w)).
Proof.
  intros Hc Hw.
  pose proof (exp_pos (c * x)) as Hx.
  pose proof (exp_pos (c * (x + w))) as Hxw.
  pose proof (exp_ineq1_le (c * w)) as Hup.
  pose proof (exp_ineq1_le (- (c * w))) as Hdown.
  assert (E1 : exp (c * (x + w)) = exp (c * x) * exp (c * w))
    by (rewrite <- exp_plus; f_equal; lra).
  assert (E2 : exp (c * x) = exp (c * (x + w)) * exp (- (c * w)))
    by (rewrite <- exp_plus; f_equal; lra).
  split.
  - apply Rmult_le_reg_r with c; [exact Hc |].
    replace ((exp (c * (x + w)) / c - exp (c * x) / c) * c)
      with (exp (c * x) * (exp (c * w) - 1)) by (rewrite E1; field; lra).
    nra.
  - apply Rmult_le_reg_r with c; [exact Hc |].
    replace ((exp (c * (x + w)) / c - exp (c * x) / c) * c)
      with (exp (c * (x + w)) * (1 - exp (- (c * w))))
      by (rewrite E2 at 1; field; lra).
    nra.
Qed.

Lemma cube_step (x w : R) :
  0 <= w ->
  w * x ^ 3 <= (x + w) ^ 4 / 4 - x ^ 4 / 4
  /\ (x + w) ^ 4 / 4 - x ^ 4 / 4 <= w * (x + w) ^ 3.
Proof.
  intros Hw.
  assert (H1 : (x + w) ^ 4 / 4 - x ^ 4 / 4 - w * x ^ 3
               = w * w * (2 * (x * x) + (2 * x + w) * (2 * x + w)) / 4)
    by (simpl; field).
  assert (H2 : w * (x + w) ^ 3 - ((x + w) ^ 4 / 4 - x ^ 4 / 4)
               = w * w * (2 * ((x + w) * (x + w)) + (2 * x + w) * (2 * x + w)) / 4)
    by (simpl; field).
  pose proof (Rle_0_sqr x). pose proof (Rle_0_sqr (x + w)).
  pose proof (Rle_0_sqr (2 * x + w)). pose proof (Rle_0_sqr w).
  unfold Rsqr in *.
  split.
  - assert (0 <= w * w * (2 * (x * x) + (2 * x + w) * (2 * x + w)) / 4)
      by (apply Rmult_le_pos; [apply Rmult_le_pos |]; lra).
    lra.
  - assert (0 <= w * w * (2 * ((x + w) * (x + w)) + (2 * x + w) * (2 * x + w)) / 4)
      by (apply Rmult_le_pos; [apply Rmult_le_pos |]; lra).
    lra.
Qed.

Lemma primitive_step (s : Settings) (x w : R) :
  supported (task s) -> 0 <= w ->
  w * value_at x s <= primitive (x + w) s - primitive x s
  /\ primitive (x + w) s - primitive x s <= w * value_at (x + w) s.
Proof.
  intros Hs Hw. apply supported_cases in Hs.
  unfold primitive, value_at, get_formula_value_at.
  destruct Hs as [-> | [-> | [-> | [-> | ->]]]]; rewrite ?math_e_pow.
  - pose proof (exp_scaled_step 1 x w ltac:(lra) Hw) as H.
    rewrite !Rmult_1_l in H. unfold Rdiv in H. rewrite Rinv_1, !Rmult_1_r in H.
    exact H.
  - apply (exp_scaled_step 2 x w); lra.
  - now apply cube_step.
  - apply (exp_scaled_step 2 x w); lra.
  - unfold Rpower. rewrite !(Rmult_comm _ (ln 3)).
    apply (exp_scaled_step (ln 3) x w); [exact ln_3_pos | exact Hw].
Qed.

(** The sum of the left ends is below the integral and the sum of the right
    ends above it, the formulas being nondecreasing. *)
Lemma raw_sum_brackets_integral (s : Settings) :
  (1 <= accuracy s)%Z -> start s <= end_ s -> supported (task s) ->
  raw_sum s (width s) - value_at (end_ s) s * width s <= integral s
  /\ integral s <= raw_sum s (width s) - value_at (start s) s * width s.
Proof.
  intros Ha Hle Hs.
  pose proof (width_nonneg s Ha Hle) as Hw.
  rewrite (raw_sum_drop_first s Ha), (raw_sum_drop_last s Ha).
  set (n := Z.to_nat (accuracy s)).
  assert (Htel : partial_sum
                   (fun i => primitive (sample_x s (S i)) s - primitive (sample_x s i) s) n
                 = integral s).
  { rewrite (partial_sum_telescope (fun i => primitive (sample_x s i) s)).
    unfold integral, n. now rewrite sample_x_first, sample_x_last. }
  rewrite <- Htel.
  split; apply partial_sum_le; intros i _; unfold sample_y;
    rewrite sample_x_next; now apply primitive_step.
Qed.

Lemma middle_error_bound (s : Settings) (g : Rng) :
  (1 <= accuracy s)%Z -> start s <= end_ s -> supported (task s) ->
  exists m : R,
    calculate_integral_sum (with_equipment MIDDLE s) g = (Ok m, g)
    /\ Rabs (m - integral s)
       <= (end_ s - start s) * (value_at (end_ s) s - value_at (start s) s)
          / (2 * IZR (accuracy s)).
Proof.
  intros Ha Hle Hs.
  assert (Ha0 : accuracy s <> 0%Z) by lia.
  destruct (raw_sum_brackets_integral s Ha Hle Hs) as (Hlow & Hhigh).
  eexists. rewrite (rule_estimate MIDDLE s g Ha0 Hs). cbv zeta. fold (width s).
  split; [reflexivity |].
  assert (Hn : 0 < IZR (accuracy s)) by (apply IZR_lt; lia).
  replace ((end_ s - start s) * (value_at (end_ s) s - value_at (start s) s)
           / (2 * IZR (accuracy s)))
    with (width s * (value_at (end_ s) s - value_at (start s) s) / 2)
    by (unfold width; field; lra).
  apply Rabs_le. lra.
Qed.

(** X2: with [start <= end] the [RIGHT] result is at most the integral of
    the formula over the interval and the [LEFT] result at least; the two
    differ by [w * (y(end) - y(start))], and the [MIDDLE] result is within
    half of that of the integral. *)
Theorem estimates_bracket_integral (s : Settings) (g : Rng) :
  (1 <= accuracy s)%Z -> start s <= end_ s -> supported (task s) ->
  exists l r m : R,
    calculate_integral_sum (with_equipment LEFT s) g = (Ok l, g)
    /\ calculate_integral_sum (with_equipment RIGHT s) g = (Ok r, g)
    /\ calculate_integral_sum (with_equipment MIDDLE s) g = (Ok m, g)
    /\ r <= integral s <= l
    /\ l - r = width s * (value_at (end_ s) s - value_at (start s) s)
    /\ Rabs (m - integral s)
       <= (end_ s - start s) * (value_at (end_ s) s - value_at (start s) s)
          / (2 * IZR (accuracy s)).
Proof.
  intros Ha Hle Hs.
  assert (Ha0 : accuracy s <> 0%Z) by lia.
  destruct (raw_sum_brackets_integral s Ha Hle Hs) as (Hlow & Hhigh).
  destruct (middle_error_bound s g Ha Hle Hs) as (m & Hm & Hb).
  exists (raw_sum s (width s) - value_at (start s) s * width s),
    (raw_sum s (width s) - value_at (end_ s) s * width s), m.
  split; [exact (rule_estimate LEFT s g Ha0 Hs) |].
  split; [exact (rule_estimate RIGHT s g Ha0 Hs) |].
  split; [exact Hm |].
  split; [split; assumption |].
  split; [lra | exact Hb].
Qed.

(** X2 at the exponential on [0, 1] with a thousand subintervals: the
    [MIDDLE] result is within a thousandth of [e - 1]. *)
Lemma estimates_bracket_integral_witness :
  (1 <= accuracy exp_thousand)%Z
  /\ start exp_thousand <= end_ exp_thousand
  /\ supported (task exp_thousand)
  /\ exists m : R,
       calculate_integral_sum exp_thousand halves = (Ok m, halves)
       /\ Rabs (m - (exp 1 - 1)) <= 1 / 1000.
Proof.
  assert (Ha : (1 <= accuracy exp_thousand)%Z) by (simpl; lia).
  assert (Hle : start exp_thousand <= end_ exp_thousand) by (simpl; lra).
  assert (Hs : supported (task exp_thousand)) by in_table.
  split; [exact Ha |].
  split; [exact Hle |].
  split; [exact Hs |].
  destruct (estimates_bracket_integral exp_thousand halves Ha Hle Hs)
    as (l & r & m & _ & _ & Hm & _ & _ & Hb).
  exists m. split; [exact Hm |].
  unfold integral, primitive, value_at, get_formula_value_at, exp_thousand in Hb.
  cbn [task start end_ accuracy] in Hb. rewrite !math_e_pow, exp_0 in Hb.
  pose proof exp_le_3 as H3. pose proof (exp_ineq1_le 1) as H1.
  eapply Rle_trans; [exact Hb |]. lra.
Defined.



Lemma sum_of_shifted_cubes (a w : R) (k : nat) :
  partial_sum (fun i => (a + INR i * w) ^ 3) k
  = INR k * a ^ 3
    + 3 * a ^ 2 * w * (INR k * (INR k - 1) / 2)
    + 3 * a * w ^ 2 * ((INR k - 1) * INR k * (2 * INR k - 1) / 6)
    + w ^ 3 * (INR k * (INR k - 1) / 2) ^ 2.
Proof.
  induction k as [| k IH].
  - simpl. field.
  - change (partial_sum (fun i => (a + INR i * w) ^ 3) (S k))
      with (partial_sum (fun i => (a + INR i * w) ^ 3) k + (a + INR k * w) ^ 3).
    rewrite IH, S_INR. field.
Qed.

(** X4: for the cube the [MIDDLE] result has a closed form: the integral
    [(b^4 - a^4) / 4] plus an excess [(b - a)^3 (a + b) / (4 n^2)]. *)
Theorem cube_trapezoid_exact (a b : R) (n : Z) (g : Rng) :
  (1 <= n)%Z ->
  calculate_integral_sum (mkSettings 22 a b n MIDDLE) g
  = (Ok ((b ^ 4 - a ^ 4) / 4 + (b - a) ^ 3 * (a + b) / (4 * IZR n ^ 2)), g).
Proof.
  intros Hn.
  set (s := mkSettings 22 a b n MIDDLE).
  assert (Ha0 : accuracy s <> 0%Z) by (simpl; lia).
  assert (Hs : supported (task s)) by in_table.
  pose proof (calculate_integral_sum_supported s g Ha0 Hs) as H.
  cbv zeta in H. fold (width s) in H. rewrite raw_sum_partial_sum in H.
  rewrite H. simpl equipment. cbv iota.
  apply f_equal2; [| reflexivity]. apply f_equal.
  rewrite (partial_sum_ext _ (fun i => width s * (a + INR i * width s) ^ 3))
    by reflexivity.
  rewrite partial_sum_scal, sum_of_shifted_cubes.
  replace (INR (Z.to_nat (accuracy s + 1))) with (IZR n + 1)
    by (rewrite INR_IZR_INZ, Z2Nat.id, plus_IZR by (simpl; lia); reflexivity).
  unfold value_at, get_formula_value_at, width. simpl.
  assert (IZR n <> 0) by (apply not_0_IZR; lia).
  field. assumption.
Qed.

(** X4 on [0, 1] with two subintervals. *)
Lemma cube_trapezoid_exact_witness :
  (1 <= 2)%Z
  /\ calculate_integral_sum (mkSettings 22 0 1 2 MIDDLE) halves
     = (Ok ((1 ^ 4 - 0 ^ 4) / 4 + (1 - 0) ^ 3 * (0 + 1) / (4 * IZR 2 ^ 2)), halves).
Proof.
  assert (H : (1 <= 2)%Z) by lia.
  split; [exact H |].
  exact (cube_trapezoid_exact 0 1 2 halves H).
Defined.

(** ** Degenerate and reversed settings *)

Lemma raw_sum_swapped (s : Settings) :
  (1 <= accuracy s)%Z ->
  raw_sum (swapped s) (width (swapped s)) = - raw_sum s (width s).
Proof.
  intros Ha.
  rewrite !raw_sum_partial_sum.
  change (accuracy (swapped s)) with (accuracy s).
  replace (Z.to_nat (accuracy s + 1)) with (S (Z.to_nat (accuracy s))) by lia.
  set (n := Z.to_nat (accuracy s)).
  rewrite <- (partial_sum_reverse (fun i => width s * sample_y s i) n).
  replace (- partial_sum (fun i => width s * sample_y s (n - i)) (S n))
    with (-1 * partial_sum (fun i => width s * sample_y s (n - i)) (S n)) by lra.
  rewrite <- partial_sum_scal.
  apply partial_sum_ext. intros i Hi.
  assert (Hw : width (swapped s) = - width s) by (unfold width; simpl; field;
    apply not_0_IZR; lia).
  assert (Hx : sample_x (swapped s) i = sample_x s (n - i)).
  { unfold sample_x at 1. rewrite Hw. simpl start.
    rewrite <- (sample_x_last s Ha). fold n.
    unfold sample_x. rewrite minus_INR by lia. lra. }
  unfold sample_y. rewrite Hx, Hw.
  change (value_at (sample_x s (n - i)) (swapped s))
    with (value_at (sample_x s (n - i)) s).
  lra.
Qed.

(** X6: exchanging [start] and [end] negates the estimate, with [LEFT]
    and [RIGHT] exchanging their roles. *)
Theorem swapping_bounds_negates (s : Settings) (g : Rng) :
  (1 <= accuracy s)%Z -> supported (task s) ->
  exists l r m : R,
    calculate_integral_sum (with_equipment LEFT s) g = (Ok l, g)
    /\ calculate_integral_sum (with_equipment RIGHT s) g = (Ok r, g)
    /\ calculate_integral_sum (with_equipment MIDDLE s) g = (Ok m, g)
    /\ calculate_integral_sum (with_equipment LEFT (swapped s)) g = (Ok (- r), g)
    /\ calculate_integral_sum (with_equipment RIGHT (swapped s)) g = (Ok (- l), g)
    /\ calculate_integral_sum (with_equipment MIDDLE (swapped s)) g = (Ok (- m), g).
Proof.
  intros Ha Hs.
  assert (Ha0 : accuracy s <> 0%Z) by lia.
  assert (Hw : width (swapped s) = - width s) by (unfold width; simpl; field;
    apply not_0_IZR; lia).
  do 3 eexists.
  rewrite (rule_estimate LEFT s g Ha0 Hs), (rule_estimate RIGHT s g Ha0 Hs),
    (rule_estimate MIDDLE s g Ha0 Hs).
  rewrite (rule_estimate LEFT (swapped s) g Ha0 Hs),
    (rule_estimate RIGHT (swapped s) g Ha0 Hs),
    (rule_estimate MIDDLE (swapped s) g Ha0 Hs).
  cbv zeta. fold (width s) (width (swapped s)).
  rewrite (raw_sum_swapped s Ha), Hw. simpl start. simpl end_.
  change (value_at (end_ s) (swapped s)) with (value_at (end_ s) s).
  change (value_at (start s) (swapped s)) with (value_at (start s) s).
  repeat (split; [reflexivity |]).
  repeat split; apply f_equal2; try reflexivity; apply f_equal; lra.
Qed.

(** X6 at the startup settings. *)
Lemma swapping_bounds_negates_witness :
  (1 <= accuracy read_settings)%Z
  /\ supported (task read_settings)
  /\ exists m : R,
       calculate_integral_sum (with_equipment MIDDLE read_settings) halves
       = (Ok m, halves)
       /\ calculate_integral_sum (with_equipment MIDDLE (swapped read_settings)) halves
          = (Ok (- m), halves).
Proof.
  assert (Ha : (1 <= accuracy read_settings)%Z) by (simpl; lia).
  assert (Hs : supported (task read_settings)) by in_table.
  split; [exact Ha |].
  split; [exact Hs |].
  destruct (swapping_bounds_negates read_settings halves Ha Hs)
    as (l & r & m & _ & _ & Hm & _ & _ & Hm').
  exists m. split; [exact Hm | exact Hm'].
Defined.

(** ** The layout of the rectangles *)




(** ** The drawing and the handlers *)


Lemma get_formula_text_supported (self : Drawer) :
  supported (task (drawer_settings self)) ->
  exists label, get_formula_text self = Ok label.
Proof.
  intros Hs. apply supported_cases in Hs. unfold get_formula_text.
  destruct Hs as [-> | [-> | [-> | [-> | ->]]]]; eexists; reflexivity.
Qed.

Lemma for_each_add_patch (rectangles : list Rectangle) (w : World) :
  for_each rectangles (fun rectangle => call (Axes_add_patch rectangle)) w
  = (Returns tt,
     mkWorld (self_ w) (rng w) (axes w ++ map Axes_add_patch rectangles)).
Proof.
  revert w. induction rectangles as [| r rest IH]; intros [d g a]; simpl.
  - now rewrite app_nil_r.
  - unfold bindW, call. simpl. rewrite IH. simpl.
    now rewrite <- app_assoc.
Qed.

(** Extremes of a list that does not decrease. *)
Lemma fold_min_nondecreasing (h : nat -> R) (k a : nat) (m : R) :
  (forall i j, (i <= j)%nat -> h i <= h j) -> m <= h a ->
  fold_left (fun m item => if Rlt_dec item m then item else m)
    (map h (seq a k)) m = m.
Proof.
  intros Hmono. revert a. induction k as [| k IH]; intros a Hm; simpl.
  - reflexivity.
  - destruct (Rlt_dec (h a) m) as [Hlt | _]; [lra |].
    apply IH. pose proof (Hmono a (S a) ltac:(lia)). lra.
Qed.

Lemma fold_max_nondecreasing (h : nat -> R) (k a : nat) (m : R) :
  (forall i j, (i <= j)%nat -> h i <= h j) -> m <= h a ->
  fold_left (fun m item => if Rgt_dec item m then item else m)
    (map h (seq a (S k))) m = h (a + k)%nat.
Proof.
  intros Hmono. revert a m. induction k as [| k IH]; intros a m Hm.
  - simpl. rewrite Nat.add_0_r.
    destruct (Rgt_dec (h a) m) as [_ | Hle]; [reflexivity | lra].
  - change (seq a (S (S k))) with (a :: seq (S a) (S k)).
    cbn [map fold_left].
    replace (a + S k)%nat with (S a + k)%nat by lia.
    apply IH.
    pose proof (Hmono a (S a) ltac:(lia)).
    destruct (Rgt_dec (h a) m); lra.
Qed.

Lemma sample_y_nondecreasing (s : Settings) (i j : nat) :
  (1 <= accuracy s)%Z -> start s <= end_ s -> supported (task s) ->
  (i <= j)%nat -> sample_y s i <= sample_y s j.
Proof.
  intros Ha Hle Hs Hij. unfold sample_y.
  apply value_at_monotone; [exact Hs |].
  pose proof (width_nonneg s Ha Hle). apply le_INR in Hij.
  unfold sample_x. nra.
Qed.

Lemma samples_ordinates (s : Settings) :
  map point_y
    (map (fun i => mkPoint (abscissa s (width s) i)
                     (value_at (abscissa s (width s) i) s))
       (range (accuracy s + 1)))
  = map (sample_y s) (seq 0 (Z.to_nat (accuracy s + 1))).
Proof.
  unfold range. rewrite !map_map. apply map_ext. intros i. simpl.
  unfold sample_y, sample_x, abscissa. now rewrite <- INR_IZR_INZ.
Qed.

Lemma samples_extremes (s : Settings) :
  (1 <= accuracy s)%Z -> start s <= end_ s -> supported (task s) ->
  let ys := map (sample_y s) (seq 0 (Z.to_nat (accuracy s + 1))) in
  py_min ys = Some (value_at (start s) s)
  /\ py_max ys = Some (value_at (end_ s) s).
Proof.
  intros Ha Hle Hs ys. unfold ys.
  replace (Z.to_nat (accuracy s + 1)) with (S (Z.to_nat (accuracy s))) by lia.
  set (n := Z.to_nat (accuracy s)).
  assert (Hmono : forall i j, (i <= j)%nat -> sample_y s i <= sample_y s j)
    by (intros; now apply sample_y_nondecreasing).
  assert (H0 : sample_y s 0 = value_at (start s) s)
    by (unfold sample_y; now rewrite sample_x_first).
  assert (Hn : sample_y s n = value_at (end_ s) s)
    by (unfold sample_y, n; now rewrite sample_x_last).
  change (seq 0 (S n)) with (0%nat :: seq 1 n). cbn [map py_min py_max].
  split; f_equal.
  - rewrite fold_min_nondecreasing; [exact H0 | exact Hmono |].
    apply Hmono. lia.
  - destruct n as [| n'] eqn:En.
    + simpl. congruence.
    + rewrite fold_max_nondecreasing; [| exact Hmono | apply Hmono; lia].
      simpl Nat.add. exact Hn.
Qed.

Lemma calculate_graph_points_samples (s : Settings) :
  accuracy s <> 0%Z -> supported (task s) ->
  calculate_graph_points s = Ok (samples s).
Proof. exact (calculate_graph_points_supported s). Qed.

Lemma calculate_graph_points_unsupported (s : Settings) :
  (1 <= accuracy s)%Z -> ~ supported (task s) ->
  calculate_graph_points s = Raise UnsupportedTask.
Proof.
  intros Ha Hs. unfold calculate_graph_points.
  rewrite calculate_delta_x_ok by lia. cbn [bind].
  destruct (range_succ_nonempty (accuracy s)) as [rest ->]; [lia |].
  cbn [for_in]. now rewrite get_formula_value_at_unsupported.
Qed.

Lemma graph_accuracy (self : Drawer) :
  (1 <= accuracy (settings_for_graph self))%Z.
Proof. unfold settings_for_graph. cbn [accuracy]. lia. Qed.

Lemma draw_graph_supported (w : World) :
  supported (task (drawer_settings (self_ w))) ->
  draw_graph w
  = (Returns tt,
     mkWorld (self_ w) (rng w)
       (axes w ++ [Axes_plot (map point_x (samples (settings_for_graph (self_ w))))
                     (map point_y (samples (settings_for_graph (self_ w))))])).
Proof.
  intros Hs. pose proof (graph_accuracy (self_ w)) as Ha.
  unfold draw_graph, bindW, get_self, pure_call, call.
  rewrite (calculate_graph_points_samples (settings_for_graph (self_ w)))
    by (try exact Hs; lia).
  reflexivity.
Qed.

Lemma draw_graph_unsupported (w : World) :
  ~ supported (task (drawer_settings (self_ w))) ->
  draw_graph w = (Raises (Exn UnsupportedTask), w).
Proof.
  intros Hs. pose proof (graph_accuracy (self_ w)) as Ha.
  unfold draw_graph, bindW, get_self, pure_call.
  now rewrite (calculate_graph_points_unsupported (settings_for_graph (self_ w)) Ha Hs).
Qed.

Lemma draw_integral_sum_ok (w : World) (rectangles : list Rectangle) (g' : Rng) :
  create_integral_shape (self_ w) (rng w) = (Ok rectangles, g') ->
  draw_integral_sum w
  = (Returns tt,
     mkWorld (self_ w) g' (axes w ++ map Axes_add_patch rectangles)).
Proof.
  intros H. unfold draw_integral_sum, bindW, get_self, drawing_call.
  rewrite H. now rewrite for_each_add_patch.
Qed.

Lemma draw_integral_sum_raises (w : World) (e : exn) (g' : Rng) :
  create_integral_shape (self_ w) (rng w) = (Raise e, g') ->
  draw_integral_sum w = (Raises (Exn e), mkWorld (self_ w) g' (axes w)).
Proof.
  intros H. unfold draw_integral_sum, bindW, get_self, drawing_call.
  now rewrite H.
Qed.

Lemma create_window_ok (w : World) (label : String.string) (bottom top : R) :
  get_formula_text (self_ w) = Ok label ->
  py_min (map point_y (drawer_points (self_ w))) = Some bottom ->
  py_max (map point_y (drawer_points (self_ w))) = Some top ->
  create_window w
  = (Returns tt,
     mkWorld (self_ w) (rng w)
       (axes w ++ [Axes_set_title label;
                   Axes_set_xlim (start (drawer_settings (self_ w)))
                     (end_ (drawer_settings (self_ w)));
                   Axes_set_ylim (bottom - 1) (top + 1);
                   Axes_grid;
                   Axes_set_position])).
Proof.
  intros Hl Hmin Hmax.
  unfold create_window, bindW, get_self, pure_call, call, or_ValueError.
  rewrite Hl. cbn [self_ rng axes]. rewrite Hmin, Hmax.
  cbn [self_ rng axes]. now rewrite <- !app_assoc.
Qed.


Lemma Drawer_draw_ok (w : World) (rectangles : list Rectangle) (g' : Rng)
  (label : String.string) (bottom top : R) :
  supported (task (drawer_settings (self_ w))) ->
  create_integral_shape (self_ w) (rng w) = (Ok rectangles, g') ->
  get_formula_text (self_ w) = Ok label ->
  py_min (map point_y (drawer_points (self_ w))) = Some bottom ->
  py_max (map point_y (drawer_points (self_ w))) = Some top ->
  Drawer_draw w
  = (Returns tt,
     mkWorld (self_ w) g'
       (axes w ++ drawing (self_ w) rectangles label bottom top)).
Proof.
  intros Hs Hrect Hl Hmin Hmax.
  unfold Drawer_draw, bindW at 1. unfold call at 1.
  unfold bindW at 1. rewrite draw_graph_supported by exact Hs.
  unfold bindW at 1.
  rewrite (draw_integral_sum_ok _ rectangles g') by exact Hrect.
  rewrite (create_window_ok _ label bottom top) by assumption.
  cbn [self_ rng axes]. unfold drawing.
  now rewrite <- !app_assoc.
Qed.


Section HandlerFacts.

Variable int : String.string -> option Z.

Lemma on_accuracy_change_parsed (text : String.string) (n : Z) (w : World) :
  int text = Some n ->
  on_accuracy_change int text w
  = apply_edit (with_accuracy n (drawer_settings (self_ w))) w.
Proof.
  intros H. unfold on_accuracy_change, apply_edit, try_except_ValueError,
    bindW at 1, or_ValueError. rewrite H. reflexivity.
Qed.

Lemma on_task_change_parsed (text : String.string) (n : Z) (w : World) :
  int text = Some n ->
  on_task_change int text w
  = apply_edit (with_task n (drawer_settings (self_ w))) w.
Proof.
  intros H. unfold on_task_change, apply_edit, try_except_ValueError,
    bindW at 1, or_ValueError. rewrite H. reflexivity.
Qed.

Lemma on_start_change_parsed (text : String.string) (n : Z) (w : World) :
  int text = Some n ->
  on_start_change int text w
  = apply_edit (with_start (IZR n) (drawer_settings (self_ w))) w.
Proof.
  intros H. unfold on_start_change, apply_edit, try_except_ValueError,
    bindW at 1, or_ValueError. rewrite H. reflexivity.
Qed.

Lemma on_end_change_parsed (text : String.string) (n : Z) (w : World) :
  int text = Some n ->
  on_end_change int text w
  = apply_edit (with_end (IZR n) (drawer_settings (self_ w))) w.
Proof.
  intros H. unfold on_end_change, apply_edit, try_except_ValueError,
    bindW at 1, or_ValueError. rewrite H. reflexivity.
Qed.

Lemma on_equipment_change_parsed (text : String.string) (n : Z)
  (e : Equipment) (w : World) :
  int text = Some n -> Equipment_of_value n = Some e ->
  on_equipment_change int text w
  = apply_edit (with_equipment e (drawer_settings (self_ w))) w.
Proof.
  intros H He. unfold on_equipment_change, apply_edit, try_except_ValueError,
    bindW at 1, or_ValueError. rewrite H.
  unfold bindW at 1. rewrite He. reflexivity.
Qed.

End HandlerFacts.

Lemma apply_edit_raises (s' : Settings) (e : exn) (w : World) :
  calculate_graph_points s' = Raise e ->
  apply_edit s' w = (Raises (Exn e), edited s' w).
Proof.
  intros H.
  unfold apply_edit, try_except_ValueError, bindW at 1, set_settings,
    bindW at 1, get_self, set_self.
  unfold Drawer_update, bindW at 1, get_self, bindW at 1, pure_call.
  cbn [self_ drawer_settings]. rewrite H. reflexivity.
Qed.

Lemma apply_edit_redraws (s' : Settings) (points : list Point) (w : World) :
  calculate_graph_points s' = Ok points ->
  apply_edit s' w = try_except_ValueError Drawer_draw (rebuilt s' points w).
Proof.
  intros H.
  unfold apply_edit, try_except_ValueError, bindW at 1, set_settings,
    bindW at 1, get_self, set_self.
  unfold Drawer_update, bindW at 1, get_self, bindW at 1, pure_call.
  cbn [self_ drawer_settings]. rewrite H.
  unfold bindW at 1, set_self. reflexivity.
Qed.

Lemma keeps_self_bind {A B : Type} (c : Method A) (k : A -> Method B) :
  keeps_self c -> (forall a, keeps_self (k a)) -> keeps_self (bindW c k).
Proof.
  intros Hc Hk w. unfold bindW. specialize (Hc w).
  destruct (c w) as [[a | e] w']; simpl in *; [| exact Hc].
  now rewrite Hk.
Qed.

Lemma keeps_self_call (c : AxesCall) : keeps_self (call c).
Proof. intros w. reflexivity. Qed.

Lemma keeps_self_get : keeps_self get_self.
Proof. intros w. reflexivity. Qed.

Lemma keeps_self_pure {A : Type} (c : result A) : keeps_self (pure_call c).
Proof. intros w. unfold pure_call. destruct c; reflexivity. Qed.

Lemma keeps_self_drawing {A : Type} (c : M A) : keeps_self (drawing_call c).
Proof.
  intros w. unfold drawing_call. destruct (c (rng w)) as [[a | e] g']; reflexivity.
Qed.

Lemma keeps_self_or {A : Type} (o : option A) : keeps_self (or_ValueError o).
Proof. intros w. unfold or_ValueError. destruct o; reflexivity. Qed.

Lemma keeps_self_for_each {A : Type} (xs : list A) (body : A -> Method unit) :
  (forall x, keeps_self (body x)) -> keeps_self (for_each xs body).
Proof.
  intros Hb. induction xs as [| x rest IH]; simpl.
  - intros w. reflexivity.
  - apply keeps_self_bind; [apply Hb | intros _; exact IH].
Qed.

Lemma keeps_self_try (body : Method unit) :
  keeps_self body -> keeps_self (try_except_ValueError body).
Proof.
  intros Hb w. unfold try_except_ValueError. specialize (Hb w).
  destruct (body w) as [[a | [e |]] w']; exact Hb.
Qed.

Create HintDb keeps.

#[local] Hint Resolve keeps_self_call keeps_self_get keeps_self_pure
  keeps_self_drawing keeps_self_or keeps_self_for_each keeps_self_try : keeps.

Ltac keeps :=
  repeat first
    [ apply keeps_self_bind; [| intros ?]
    | solve [auto with keeps]
    | apply keeps_self_for_each; intros ? ].

Lemma keeps_self_draw : keeps_self Drawer_draw.
Proof.
  unfold Drawer_draw, draw_graph, draw_integral_sum, create_window. keeps.
Qed.

Lemma try_draw_self (w : World) :
  self_ (snd (try_except_ValueError Drawer_draw w)) = self_ w.
Proof. apply keeps_self_try, keeps_self_draw. Qed.

(** [update] raises nothing but what the calculator raised, and a handler
    that returns has stored the points of the edited settings. *)
Lemma apply_edit_returns (s' : Settings) (w w' : World) :
  apply_edit s' w = (Returns tt, w') ->
  drawer_settings (self_ w') = s'
  /\ calculate_graph_points s' = Ok (drawer_points (self_ w')).
Proof.
  intros H.
  destruct (calculate_graph_points s') as [points | e] eqn:E.
  - rewrite (apply_edit_redraws s' points w E) in H.
    pose proof (try_draw_self (rebuilt s' points w)) as Hself.
    rewrite H in Hself. simpl in Hself. rewrite Hself. split; reflexivity.
  - rewrite (apply_edit_raises s' e w E) in H. discriminate.
Qed.

Lemma consistent_after_edit (s' : Settings) (w w' : World) :
  apply_edit s' w = (Returns tt, w') -> consistent w'.
Proof.
  intros H. apply apply_edit_returns in H. destruct H as (Hs & Hp).
  unfold consistent. now rewrite Hs.
Qed.

Section Invariant.

Variable int : String.string -> option Z.

(** X10: a handler that returns leaves the points of the object equal to
    those of its settings, whatever the text, if they were so before. *)
Theorem handlers_keep_points_consistent (handler : String.string -> Method unit)
  (text : String.string) (w w' : World) :
  In handler [on_accuracy_change int; on_task_change int; on_start_change int;
              on_end_change int; on_equipment_change int] ->
  consistent w ->
  handler text w = (Returns tt, w') ->
  consistent w'.
Proof.
  intros Hin Hw H.
  destruct (int text) as [n |] eqn:E.
  - simpl in Hin.
    destruct Hin as [<- | [<- | [<- | [<- | [<- | []]]]]].
    + rewrite (on_accuracy_change_parsed int text n w E) in H.
      now apply consistent_after_edit in H.
    + rewrite (on_task_change_parsed int text n w E) in H.
      now apply consistent_after_edit in H.
    + rewrite (on_start_change_parsed int text n w E) in H.
      now apply consistent_after_edit in H.
    + rewrite (on_end_change_parsed int text n w E) in H.
      now apply consistent_after_edit in H.
    + destruct (Equipment_of_value n) as [e |] eqn:Ee.
      * rewrite (on_equipment_change_parsed int text n e w E Ee) in H.
        now apply consistent_after_edit in H.
      * unfold on_equipment_change, try_except_ValueError, bindW at 1,
          or_ValueError in H.
        rewrite E in H. unfold bindW at 1 in H. rewrite Ee in H.
        injection H as <-. exact Hw.
  - assert (Hsame : handler text w = (Returns tt, w)).
    { simpl in Hin.
      destruct Hin as [<- | [<- | [<- | [<- | [<- | []]]]]];
        unfold on_accuracy_change, on_task_change, on_start_change,
          on_end_change, on_equipment_change, try_except_ValueError,
          bindW at 1, or_ValueError; rewrite E; reflexivity. }
    rewrite Hsame in H. injection H as <-. exact Hw.
Qed.

End Invariant.

Lemma edited_inconsistent (s' : Settings) (e : exn) (w : World) :
  calculate_graph_points s' = Raise e -> ~ consistent (edited s' w).
Proof.
  intros H Hc. unfold consistent, edited in Hc. cbn [self_ drawer_settings] in Hc.
  rewrite H in Hc. discriminate.
Qed.

Lemma calculate_graph_points_zero (s : Settings) :
  accuracy s = 0%Z -> calculate_graph_points s = Raise ZeroDivisionError.
Proof.
  intros H. unfold calculate_graph_points, calculate_delta_x. now rewrite H.
Qed.

Section Edits.

Variable int : String.string -> option Z.

(** X11: the text [0] in the accuracy box is not ignored: the
    [ZeroDivisionError] of [update] leaves the handler, the accuracy is
    already 0 and the points are still the old ones, nothing is drawn. *)
Theorem zero_accuracy_edit_escapes (text : String.string) (w : World) :
  int text = Some 0%Z ->
  let s' := with_accuracy 0 (drawer_settings (self_ w)) in
  on_accuracy_change int text w = (Raises (Exn ZeroDivisionError), edited s' w)
  /\ ~ consistent (edited s' w).
Proof.
  intros H s'.
  assert (E : calculate_graph_points s' = Raise ZeroDivisionError)
    by now apply calculate_graph_points_zero.
  rewrite (on_accuracy_change_parsed int text 0 w H).
  split; [now apply apply_edit_raises | now apply edited_inconsistent with (e := ZeroDivisionError)].
Qed.

(** X12: a task outside the table, typed while the accuracy is at least
    1, is not ignored either: 'Unsupported task' leaves the handler, the
    task is already changed and the points are still the old ones. *)
Theorem unsupported_task_edit_escapes (text : String.string) (t : Z) (w : World) :
  int text = Some t -> ~ supported t ->
  (1 <= accuracy (drawer_settings (self_ w)))%Z ->
  let s' := with_task t (drawer_settings (self_ w)) in
  on_task_change int text w = (Raises (Exn UnsupportedTask), edited s' w)
  /\ ~ consistent (edited s' w).
Proof.
  intros H Ht Ha s'.
  assert (E : calculate_graph_points s' = Raise UnsupportedTask)
    by (apply calculate_graph_points_unsupported; assumption).
  rewrite (on_task_change_parsed int text t w H).
  split; [now apply apply_edit_raises | now apply edited_inconsistent with (e := UnsupportedTask)].
Qed.

End Edits.

Example plain_int_examples :
  plain_int "10"%string = Some 10%Z /\ plain_int "-1"%string = Some (-1)%Z
  /\ plain_int "0"%string = Some 0%Z /\ plain_int "1e3"%string = None
  /\ plain_int ""%string = None /\ plain_int "999"%string = Some 999%Z.
Proof. vm_compute. repeat split. Qed.


Lemma samples_nonempty (s : Settings) :
  (1 <= accuracy s)%Z -> exists p rest, samples s = p :: rest.
Proof.
  intros H. unfold samples.
  destruct (range_succ_nonempty (accuracy s)) as [rest ->]; [lia |].
  cbn [map]. do 2 eexists. reflexivity.
Qed.


(** [draw] on an object whose settings are in order and whose points are
    those of the settings returns. *)
Lemma Drawer_draw_returns (s : Settings) (g : Rng) (log : list AxesCall) :
  (1 <= accuracy s)%Z -> supported (task s) ->
  exists w', Drawer_draw (mkWorld (mkDrawer s (samples s)) g log) = (Returns tt, w').
Proof.
  intros Ha Hs.
  assert (Ha0 : accuracy s <> 0%Z) by lia.
  destruct (create_integral_shape_supported s g Ha0 Hs)
    as (shift & g' & _ & _ & Hrect).
  fold (width s) in Hrect. fold (samples s) in Hrect.
  destruct (get_formula_text_supported (mkDrawer s (samples s)) Hs) as [label Hl].
  destruct (samples_nonempty s Ha) as (p & rest & Hp).
  eexists.
  apply (Drawer_draw_ok (mkWorld (mkDrawer s (samples s)) g log)
           (map (fun point => create_integral_rectangle point (width s) shift)
              (samples s)) g' label
           (fold_left (fun m item => if Rlt_dec item m then item else m)
              (map point_y rest) (point_y p))
           (fold_left (fun m item => if Rgt_dec item m then item else m)
              (map point_y rest) (point_y p)));
    cbn [self_ rng drawer_points drawer_settings]; try assumption;
    rewrite Hp; reflexivity.
Qed.

Lemma apply_edit_valid (s' : Settings) (w : World) :
  (1 <= accuracy s')%Z -> supported (task s') ->
  exists self' : Drawer,
    Drawer_init s' = Ok self'
    /\ apply_edit s' w = Drawer_draw (mkWorld self' (rng w) (axes w))
    /\ fst (apply_edit s' w) = Returns tt.
Proof.
  intros Ha Hs.
  assert (Ha0 : accuracy s' <> 0%Z) by lia.
  pose proof (calculate_graph_points_samples s' Ha0 Hs) as Hp.
  destruct (Drawer_draw_returns s' (rng w) (axes w) Ha Hs) as [w' Hd].
  exists (mkDrawer s' (samples s')).
  split; [unfold Drawer_init; now rewrite Hp |].
  rewrite (apply_edit_redraws s' _ w Hp).
  unfold rebuilt, try_except_ValueError. rewrite Hd. split; reflexivity.
Qed.

Section MoreEdits.

Variable int : String.string -> option Z.

(** X16: a text [int] rejects changes nothing under any of the five
    handlers, and neither does an integer that is no member of
    [Equipment] under [on_equipment_change]; each returns. *)
Theorem ignored_input_changes_nothing (text : String.string) (w : World) :
  (int text = None ->
     on_accuracy_change int text w = (Returns tt, w)
     /\ on_task_change int text w = (Returns tt, w)
     /\ on_start_change int text w = (Returns tt, w)
     /\ on_end_change int text w = (Returns tt, w)
     /\ on_equipment_change int text w = (Returns tt, w))
  /\ (forall v, int text = Some v -> (v < 1 \/ 4 < v)%Z ->
        on_equipment_change int text w = (Returns tt, w)).
Proof.
  split.
  - intros H.
    unfold on_accuracy_change, on_task_change, on_start_change, on_end_change,
      on_equipment_change, try_except_ValueError, bindW, or_ValueError.
    rewrite H. repeat split.
  - intros v H Hv.
    assert (He : Equipment_of_value v = None).
    { unfold Equipment_of_value.
      destruct v as [| p | p]; try reflexivity.
      repeat (destruct p as [p | p |]; try reflexivity); lia. }
    unfold on_equipment_change, try_except_ValueError, bindW, or_ValueError.
    rewrite H, He. reflexivity.
Qed.

End MoreEdits.

(** X15: [Equipment(value)] succeeds exactly on 1, 2, 3 and 4 and is the
    inverse of taking the value of a member. *)
Theorem Equipment_value_round_trip :
  (forall e, Equipment_of_value (Equipment_value e) = Some e)
  /\ (forall v e, Equipment_of_value v = Some e -> Equipment_value e = v)
  /\ (forall v, Equipment_of_value v = None <-> (v < 1 \/ 4 < v)%Z).
Proof.
  split; [| split].
  - intros []; reflexivity.
  - intros v e H. unfold Equipment_of_value in H.
    destruct v as [| p | p]; try discriminate.
    repeat (destruct p as [p | p |]; try discriminate);
      injection H as <-; reflexivity.
  - intros v. split.
    + intros H. unfold Equipment_of_value in H.
      destruct v as [| p | p]; try lia.
      repeat (destruct p as [p | p |]; try discriminate; try lia).
    + intros H. unfold Equipment_of_value.
      destruct v as [| p | p]; try reflexivity.
      repeat (destruct p as [p | p |]; try reflexivity); lia.
Qed.

Lemma startup_estimate_close (m : R) :
  Rabs (m - integral read_settings)
  <= (end_ read_settings - start read_settings)
     * (value_at (end_ read_settings) read_settings
        - value_at (start read_settings) read_settings)
     / (2 * IZR (accuracy read_settings)) ->
  Rabs (m - (exp 1 - 1)) <= 1 / 10.
Proof.
  unfold integral, primitive, value_at, get_formula_value_at, read_settings.
  cbn [task start end_ accuracy]. rewrite !math_e_pow, exp_0.
  intros H. pose proof exp_le_3. pose proof (exp_ineq1_le 1).
  eapply Rle_trans; [exact H |]. lra.
Qed.

(** X17: the program at startup: the drawer is built and drawn without an
    exception and without a draw from the generator, eighteen calls reach the
    axes, and the number printed is within a tenth of [e - 1]. *)
Theorem main_prints_estimate (g : Rng) :
  exists (printed : R) (log : list AxesCall),
    main g = (Returns printed, g, log)
    /\ Z.of_nat (length log) = 18%Z
    /\ Rabs (printed - (exp 1 - 1)) <= 1 / 10.
Proof.
  assert (Ha : (1 <= accuracy read_settings)%Z) by (simpl; lia).
  assert (Ha0 : accuracy read_settings <> 0%Z) by (simpl; lia).
  assert (Hle : start read_settings <= end_ read_settings) by (simpl; lra).
  assert (Hs : supported (task read_settings)) by in_table.
  destruct (create_integral_shape_supported read_settings g Ha0 Hs)
    as (shift & g' & Hd & Hshift & Hrect).
  fold (width read_settings) in Hd, Hrect. fold (samples read_settings) in Hd, Hrect.
  assert (Hg : g' = g).
  { rewrite shape_shift_keeps_generator in Hshift by (simpl; discriminate).
    now injection Hshift. }
  subst g'.
  destruct (get_formula_text_supported
              (mkDrawer read_settings (samples read_settings)) Hs) as [label Hl].
  destruct (samples_extremes read_settings Ha Hle Hs) as (Hmin & Hmax).
  rewrite <- samples_ordinates in Hmin, Hmax.
  fold (samples read_settings) in Hmin, Hmax.
  destruct (middle_error_bound read_settings g Ha Hle Hs) as (m & Hm & Hb).
  change (with_equipment MIDDLE read_settings) with read_settings in Hm.
  exists m. eexists.
  split.
  - pose proof (Drawer_draw_ok
                  (mkWorld (mkDrawer read_settings (samples read_settings)) g [])
                  _ g label _ _ Hs Hrect Hl Hmin Hmax) as Hdraw.
    unfold main. rewrite Hd. unfold bindW. rewrite Hdraw.
    unfold drawing_call. cbn [self_ rng axes]. rewrite Hm. reflexivity.
  - split; [| now apply startup_estimate_close].
    cbn [axes]. unfold drawing. rewrite !length_app, !length_map. cbn [length].
    unfold samples. rewrite length_map, length_range.
    change (accuracy read_settings + 1)%Z with 11%Z. lia.
Qed.

(** ** The statements about the drawer at the startup settings *)


Lemma startup_world_consistent : consistent startup_world.
Proof.
  unfold consistent, startup_world. cbn [self_ drawer_settings drawer_points].
  apply calculate_graph_points_samples; [simpl; lia | in_table].
Qed.



(** X10 at the startup world, the text [5] typed in the accuracy box. *)
Lemma handlers_keep_points_consistent_witness :
  consistent startup_world
  /\ exists w' : World,
       on_accuracy_change plain_int "5"%string startup_world = (Returns tt, w')
       /\ consistent w'.
Proof.
  pose proof startup_world_consistent as Hc.
  split; [exact Hc |].
  assert (Hp : plain_int "5"%string = Some 5%Z) by reflexivity.
  assert (Hret : fst (on_accuracy_change plain_int "5"%string startup_world)
                 = Returns tt).
  { rewrite (on_accuracy_change_parsed plain_int _ 5 startup_world Hp).
    destruct (apply_edit_valid
                (with_accuracy 5 (drawer_settings (self_ startup_world)))
                startup_world) as (self' & _ & _ & Hfst);
      [simpl; lia | in_table | exact Hfst]. }
  destruct (on_accuracy_change plain_int "5"%string startup_world)
    as [r w'] eqn:E.
  simpl in Hret. subst r.
  exists w'. split; [reflexivity |].
  apply (handlers_keep_points_consistent plain_int
           (on_accuracy_change plain_int) "5"%string startup_world w').
  - left. reflexivity.
  - exact Hc.
  - exact E.
Defined.

(** X11 at the startup world. *)
Lemma zero_accuracy_edit_escapes_witness :
  plain_int "0"%string = Some 0%Z
  /\ on_accuracy_change plain_int "0"%string startup_world
     = (Raises (Exn ZeroDivisionError),
        edited (with_accuracy 0 read_settings) startup_world).
Proof.
  assert (Hp : plain_int "0"%string = Some 0%Z) by reflexivity.
  split; [exact Hp |].
  exact (proj1 (zero_accuracy_edit_escapes plain_int "0"%string startup_world Hp)).
Defined.

(** X12 at the startup world, the text [999] typed in the task box. *)
Lemma unsupported_task_edit_escapes_witness :
  plain_int "999"%string = Some 999%Z
  /\ ~ supported 999
  /\ (1 <= accuracy (drawer_settings (self_ startup_world)))%Z
  /\ on_task_change plain_int "999"%string startup_world
     = (Raises (Exn UnsupportedTask),
        edited (with_task 999 read_settings) startup_world).
Proof.
  assert (Hp : plain_int "999"%string = Some 999%Z) by reflexivity.
  assert (Ha : (1 <= accuracy (drawer_settings (self_ startup_world)))%Z)
    by (simpl; lia).
  split; [exact Hp |].
  split; [exact unsupported_999 |].
  split; [exact Ha |].
  exact (proj1 (unsupported_task_edit_escapes plain_int "999"%string 999
                  startup_world Hp unsupported_999 Ha)).
Defined.

(** X15 at the value 3. *)
Lemma Equipment_value_round_trip_witness :
  Equipment_of_value 3 = Some MIDDLE /\ Equipment_value MIDDLE = 3%Z.
Proof.
  assert (H : Equipment_of_value 3 = Some MIDDLE) by reflexivity.
  split; [exact H |].
  exact (proj1 (proj2 Equipment_value_round_trip) 3%Z MIDDLE H).
Defined.

(** X16 at the startup world, the text [1e3] typed in the accuracy box. *)
Lemma ignored_input_changes_nothing_witness :
  plain_int "1e3"%string = None
  /\ on_accuracy_change plain_int "1e3"%string startup_world
     = (Returns tt, startup_world).
Proof.
  assert (Hp : plain_int "1e3"%string = None) by reflexivity.
  split; [exact Hp |].
  exact (proj1 (proj1 (ignored_input_changes_nothing plain_int "1e3"%string
                         startup_world) Hp)).
Defined.

(** ** The calculator within the range of a float *)

Lemma overflow_bound_split :
  Ranged.overflow_bound = 2 ^ 970 * (2 ^ 54 - 1).
Proof.
  unfold Ranged.overflow_bound.
  change 1024%nat with (970 + 54)%nat. rewrite pow_add. ring.
Qed.

Lemma overflow_bound_large : 4 <= Ranged.overflow_bound.
Proof.
  rewrite overflow_bound_split.
  assert (H1 : 2 ^ 2 <= 2 ^ 970) by (apply Rle_pow; [lra | lia]).
  assert (H2 : 2 ^ 1 <= 2 ^ 54) by (apply Rle_pow; [lra | lia]).
  assert (E2 : 2 ^ 2 = 4) by (simpl; lra).
  assert (E1 : 2 ^ 1 = 2) by (simpl; lra).
  rewrite E2 in H1. rewrite E1 in H2.
  generalize dependent (2 ^ 970). generalize dependent (2 ^ 54).
  intros a Ha b Hb. nra.
Qed.




Lemma float_pow_in_range (y : R) :
  Ranged.in_range y -> Ranged.float_pow y = Ranged.Ok y.
Proof.
  intros H. unfold Ranged.float_pow.
  destruct (Rlt_dec (Rabs y) Ranged.overflow_bound); [reflexivity | contradiction].
Qed.


Lemma float_pow_returns (y v : R) :
  Ranged.float_pow y = Ranged.Ok v -> v = y.
Proof.
  unfold Ranged.float_pow.
  destruct (Rlt_dec (Rabs y) Ranged.overflow_bound); congruence.
Qed.

(** The ranged evaluator is the plain one followed by the range check. *)
Lemma ranged_value_spec (x : R) (s : Settings) :
  Ranged.get_formula_value_at x s
  = match get_formula_value_at x s with
    | Ok y => Ranged.float_pow y
    | Raise _ => Ranged.Raise Ranged.UnsupportedTask
    end.
Proof.
  unfold Ranged.get_formula_value_at, get_formula_value_at.
  destruct (task s) as [| p | p]; try reflexivity.
  repeat (destruct p as [p | p |]; try reflexivity).
Qed.

Lemma ranged_value_in_range (x : R) (s : Settings) :
  supported (task s) -> Ranged.in_range (value_at x s) ->
  Ranged.get_formula_value_at x s = Ranged.Ok (value_at x s).
Proof.
  intros Hs H.
  rewrite ranged_value_spec, (get_formula_value_at_supported x s Hs).
  now apply float_pow_in_range.
Qed.


(** Where the ranged evaluator returns, the plain one returns the same. *)
Lemma ranged_value_refines (x y : R) (s : Settings) :
  Ranged.get_formula_value_at x s = Ranged.Ok y ->
  get_formula_value_at x s = Ok y.
Proof.
  rewrite ranged_value_spec.
  destruct (get_formula_value_at x s) as [v | e]; [| discriminate].
  intros H. apply float_pow_returns in H. now subst.
Qed.

Lemma ranged_delta_x_ok (s : Settings) :
  accuracy s <> 0%Z -> Ranged.calculate_delta_x s = Ranged.Ok (width s).
Proof.
  intros H. unfold Ranged.calculate_delta_x, width.
  destruct (Z.eqb_spec (accuracy s) 0); [contradiction | reflexivity].
Qed.


Lemma ranged_points_loop (s : Settings) (w : R) (idx : list Z) (acc : list Point) :
  supported (task s) ->
  (forall i, In i idx -> Ranged.in_range (value_at (abscissa s w i) s)) ->
  Ranged.for_in idx
    (fun i points =>
       Ranged.bind (Ranged.get_formula_value_at (start s + IZR i * w) s)
         (fun y => Ranged.Ok (points ++ [mkPoint (start s + IZR i * w) y])))
    acc
  = Ranged.Ok
      (acc ++ map (fun i => mkPoint (abscissa s w i) (value_at (abscissa s w i) s)) idx).
Proof.
  intros Hs. revert acc.
  induction idx as [| i rest IH]; intros acc Hin; simpl.
  - now rewrite app_nil_r.
  - fold (abscissa s w i).
    rewrite (ranged_value_in_range _ _ Hs) by (apply Hin; now left). simpl.
    rewrite IH by (intros; apply Hin; now right).
    now rewrite <- app_assoc.
Qed.


Lemma ranged_points_loop_refines (s : Settings) (w : R) (idx : list Z)
  (acc points : list Point) :
  Ranged.for_in idx
    (fun i points =>
       Ranged.bind (Ranged.get_formula_value_at (start s + IZR i * w) s)
         (fun y => Ranged.Ok (points ++ [mkPoint (start s + IZR i * w) y])))
    acc = Ranged.Ok points ->
  for_in idx
    (fun i points =>
       let x := start s + IZR i * w in
       y <- get_formula_value_at x s ;; Ok (points ++ [mkPoint x y]))
    acc = Ok points.
Proof.
  revert acc. induction idx as [| i rest IH]; intros acc H; simpl in *.
  - congruence.
  - destruct (Ranged.get_formula_value_at (start s + IZR i * w) s) as [y | e] eqn:E;
      simpl in H; [| discriminate].
    rewrite (ranged_value_refines _ _ _ E). simpl. now apply IH.
Qed.

(** Where the ranged [calculate_graph_points] returns, the plain one returns
    the same points. *)
Lemma ranged_graph_points_refines (s : Settings) (points : list Point) :
  Ranged.calculate_graph_points s = Ranged.Ok points ->
  calculate_graph_points s = Ok points.
Proof.
  unfold Ranged.calculate_graph_points, calculate_graph_points,
    Ranged.calculate_delta_x, calculate_delta_x.
  destruct (accuracy s =? 0)%Z; simpl; [discriminate |].
  apply ranged_points_loop_refines.
Qed.

(** A nondecreasing formula in range at both ends of an interval is in
    range inside it. *)
Lemma in_range_between (s : Settings) (lo hi x : R) :
  supported (task s) -> lo <= x <= hi ->
  Ranged.in_range (value_at lo s) -> Ranged.in_range (value_at hi s) ->
  Ranged.in_range (value_at x s).
Proof.
  intros Hs [Hlo Hhi] Rlo Rhi. unfold Ranged.in_range in *.
  pose proof (value_at_monotone s lo x Hs Hlo).
  pose proof (value_at_monotone s x hi Hs Hhi).
  apply Rabs_def2 in Rlo, Rhi. apply Rabs_def1; lra.
Qed.

Lemma in_range_index (m i : Z) :
  In i (range m) -> exists k : nat, (k < Z.to_nat m)%nat /\ i = Z.of_nat k.
Proof.
  unfold range. intros H. apply in_map_iff in H.
  destruct H as (k & <- & Hk). apply in_seq in Hk.
  exists k. split; [lia | reflexivity].
Qed.

(** In range at both bounds, the formula is in range at every sample. *)
Lemma samples_in_range (s : Settings) (i : Z) :
  (1 <= accuracy s)%Z -> supported (task s) ->
  Ranged.in_range (value_at (start s) s) -> Ranged.in_range (value_at (end_ s) s) ->
  In i (range (accuracy s + 1)) ->
  Ranged.in_range (value_at (abscissa s (width s) i) s).
Proof.
  intros Ha Hs R0 R1 Hi.
  apply in_range_index in Hi. destruct Hi as (k & Hk & ->).
  assert (Hn : 0 < IZR (accuracy s)) by (apply IZR_lt; lia).
  assert (Hk' : 0 <= INR k <= IZR (accuracy s)).
  { split; [apply pos_INR |].
    rewrite INR_IZR_INZ. apply IZR_le. lia. }
  assert (Hend : end_ s = start s + IZR (accuracy s) * width s)
    by (unfold width; field; lra).
  unfold abscissa. rewrite <- INR_IZR_INZ.
  destruct (Rle_dec (start s) (end_ s)) as [Hle | Hgt].
  - assert (0 <= width s) by (unfold width; apply Rmult_le_pos;
      [lra | left; now apply Rinv_0_lt_compat]).
    apply (in_range_between s (start s) (end_ s)); try assumption. nra.
  - assert (width s <= 0).
    { unfold width. apply Rmult_le_reg_r with (IZR (accuracy s)); [exact Hn |].
      unfold Rdiv. rewrite Rmult_assoc, Rinv_l by lra. lra. }
    apply (in_range_between s (end_ s) (start s)); try assumption. nra.
Qed.

Lemma ranged_graph_points_in_range (s : Settings) :
  accuracy s <> 0%Z -> supported (task s) ->
  (forall i, In i (range (accuracy s + 1)) ->
     Ranged.in_range (value_at (abscissa s (width s) i) s)) ->
  Ranged.calculate_graph_points s = Ranged.Ok (samples s).
Proof.
  intros Ha Hs Hin. unfold Ranged.calculate_graph_points.
  rewrite (ranged_delta_x_ok s Ha). unfold Ranged.bind at 1; cbv beta iota.
  exact (ranged_points_loop s (width s) _ [] Hs Hin).
Qed.






Lemma exponential_in_range_on_unit (s : Settings) :
  task s = 2%Z ->
  Ranged.in_range (value_at 0 s) /\ Ranged.in_range (value_at 1 s).
Proof.
  intros H. unfold Ranged.in_range, value_at, get_formula_value_at. rewrite H.
  rewrite !math_e_pow, exp_0.
  pose proof overflow_bound_large. pose proof exp_le_3. pose proof (exp_pos 1).
  rewrite !Rabs_pos_eq by lra. lra.
Qed.



(** ** Edits and degenerate settings within the range of a float *)




Lemma exponential_on_unit_returns (s : Settings) :
  task s = 2%Z -> start s = 0 -> end_ s = 1 -> (1 <= accuracy s)%Z ->
  Ranged.calculate_graph_points s = Ranged.Ok (samples s).
Proof.
  intros Ht H0 H1 Ha.
  assert (Hs : supported (task s)) by (rewrite Ht; in_table).
  destruct (exponential_in_range_on_unit s Ht) as (R0 & R1).
  apply ranged_graph_points_in_range; [lia | exact Hs |].
  intros i Hi. apply samples_in_range; try assumption.
  - now rewrite H0.
  - now rewrite H1.
Qed.

Section RangedEdits.

Variable int : String.string -> option Z.


(** X14: an edit that leaves the settings in order (accuracy at least 1,
    task of the table): if the calculator returns the points of the edited
    settings and the curve of [draw_graph] (no [OverflowError]), the handler
    returns and does what building a new drawer from the edited settings and
    drawing it does, whatever the points held before. *)
Theorem valid_edit_is_rebuild_and_draw (text : String.string) (n : Z)
  (w : World) :
  int text = Some n ->
  let s := drawer_settings (self_ w) in
  let redrawn (handler : Method unit) (s' : Settings) :=
    forall points curve : list Point,
      Ranged.calculate_graph_points s' = Ranged.Ok points ->
      Ranged.calculate_graph_points (settings_for_graph (mkDrawer s' points))
      = Ranged.Ok curve ->
      Drawer_init s' = Ok (mkDrawer s' points)
      /\ handler w = Drawer_draw (rebuilt s' points w)
      /\ fst (handler w) = Returns tt in
  ((1 <= n)%Z -> supported (task s) ->
     redrawn (on_accuracy_change int text) (with_accuracy n s))
  /\ (supported n -> (1 <= accuracy s)%Z ->
        redrawn (on_task_change int text) (with_task n s))
  /\ ((1 <= accuracy s)%Z -> supported (task s) ->
        redrawn (on_start_change int text) (with_start (IZR n) s))
  /\ ((1 <= accuracy s)%Z -> supported (task s) ->
        redrawn (on_end_change int text) (with_end (IZR n) s)).
Proof.
  intros H s redrawn. unfold redrawn.
  assert (Hedit : forall s', (1 <= accuracy s')%Z -> supported (task s') ->
            forall points,
              Ranged.calculate_graph_points s' = Ranged.Ok points ->
              Drawer_init s' = Ok (mkDrawer s' points)
              /\ apply_edit s' w = Drawer_draw (rebuilt s' points w)
              /\ fst (apply_edit s' w) = Returns tt).
  { intros s' Ha Hs points Hp.
    apply ranged_graph_points_refines in Hp.
    destruct (apply_edit_valid s' w Ha Hs) as (self' & Hinit & Hdraw & Hret).
    unfold Drawer_init in Hinit. rewrite Hp in Hinit. cbn [bind] in Hinit.
    injection Hinit as <-.
    split; [unfold Drawer_init; now rewrite Hp |].
    split; [exact Hdraw | exact Hret]. }
  split; [| split; [| split]]; intros Hv1 Hv2 points curve Hp _.
  - rewrite (on_accuracy_change_parsed int text n w H). now apply Hedit.
  - rewrite (on_task_change_parsed int text n w H). now apply Hedit.
  - rewrite (on_start_change_parsed int text n w H). now apply Hedit.
  - rewrite (on_end_change_parsed int text n w H). now apply Hedit.
Qed.

End RangedEdits.


(** X14 at the startup world, the text [5] typed in the accuracy box. *)
Lemma valid_edit_is_rebuild_and_draw_witness :
  plain_int "5"%string = Some 5%Z
  /\ (1 <= 5)%Z
  /\ supported (task (drawer_settings (self_ startup_world)))
  /\ Ranged.calculate_graph_points (with_accuracy 5 read_settings)
     = Ranged.Ok (samples (with_accuracy 5 read_settings))
  /\ Drawer_init (with_accuracy 5 read_settings)
     = Ok (mkDrawer (with_accuracy 5 read_settings)
             (samples (with_accuracy 5 read_settings)))
  /\ fst (on_accuracy_change plain_int "5"%string startup_world) = Returns tt.
Proof.
  assert (Hp : plain_int "5"%string = Some 5%Z) by reflexivity.
  assert (Hn : (1 <= 5)%Z) by lia.
  assert (Hs : supported (task (drawer_settings (self_ startup_world))))
    by in_table.
  assert (Hpts : Ranged.calculate_graph_points (with_accuracy 5 read_settings)
                 = Ranged.Ok (samples (with_accuracy 5 read_settings))).
  { apply exponential_on_unit_returns; try reflexivity. simpl. lia. }
  assert (Hc : Ranged.calculate_graph_points
                 (settings_for_graph
                    (mkDrawer (with_accuracy 5 read_settings)
                       (samples (with_accuracy 5 read_settings))))
               = Ranged.Ok
                   (samples
                      (settings_for_graph
                         (mkDrawer (with_accuracy 5 read_settings)
                            (samples (with_accuracy 5 read_settings)))))).
  { apply exponential_on_unit_returns; try reflexivity.
    apply graph_accuracy. }
  split; [exact Hp |].
  split; [exact Hn |].
  split; [exact Hs |].
  split; [exact Hpts |].
  destruct (proj1 (valid_edit_is_rebuild_and_draw plain_int "5"%string 5
                     startup_world Hp) Hn Hs _ _ Hpts Hc) as (Hinit & _ & Hret).
  split; [exact Hinit | exact Hret].
Defined.
